(** * StepSight: the obstacle alert pipeline of [AIDetectionService]

    A shallow embedding of [src/services/AIDetectionService.ts], of the
    alert path of the first-generation [DetectionService], of the tick
    callback of the camera screen and of the step-length handler of the
    settings screen, followed by the properties the specification states
    about the pipeline and by further properties read off the code.

    Conventions of the embedding.
    - A JavaScript [number] supplied by the Detector or by the configuration
      (confidence, positions, sizes, distances, step length) is a finite
      value, modelled as a rational [Q]: a decimal literal of the source is
      the rational it spells, arithmetic is exact, and comparisons are the
      boolean ones.  Rounding of binary floating point is not modelled.
    - [steps] is an integer: every producer in the repository obtains it from
      [Math.ceil] or from an integer expression.  Timestamps are the integer
      milliseconds of [Date.now()].  Both are [Z].
    - The one quotient the tracker forms at run time (velocity) has a zero
      divisor when two observations carry the same timestamp; its value is a
      [number], which adds the non-finite values of JavaScript.
    - [Math.sqrt] is a parameter of the tracker: rationals are not closed
      under square roots, and no property below depends on the choice.
    - Every [Date.now()] read is an explicit argument; the reads of one tick
      are gathered in a [Clock].  [Math.random()] reads are arguments too.
    - A method that assigns fields of [this] takes the service and returns
      the new one; [updateObjectTracking], which assigns fields of the
      detections it is given, returns them as well.
    - [Map<string, _>] is a [gmap string _]; the [processed] set of the
      clusterer is a [gset string]. *)

From Stdlib Require Import ZArith QArith Qround Qabs Lqa String Ascii.
From stdpp Require Import gmap strings list pretty sorting.

Set Default Proof Using "Type".
#[local] Set Warnings "-clear-no-such-hyp".
Open Scope Z_scope.

(** ** Numbers *)

Definition Qleb (a b : Q) : bool := Qle_bool a b.
Definition Qltb (a b : Q) : bool := negb (Qle_bool b a).
Definition Qgtb (a b : Q) : bool := Qltb b a.
Definition Qgeb (a b : Q) : bool := Qleb b a.

(** [Math.max(a, b)] on finite values. *)
Definition Qmaxb (a b : Q) : Q := if Qleb a b then b else a.

(** [Math.ceil] and [Math.round] (halves go up) on finite values. *)
Definition Math_ceil (q : Q) : Z := Qceiling q.
Definition Math_round (q : Q) : Z := Qfloor (q + (1 # 2)).

(** A JavaScript number that may be non-finite. *)
Inductive number : Type :=
  | Fin (q : Q)
  | PosInfinity
  | NegInfinity
  | NaN.

(** [a / b] for finite [a] and a finite divisor [b] that is not [-0]. *)
Definition js_div (a b : Q) : number :=
  if Qeq_bool b 0 then
    if Qeq_bool a 0 then NaN
    else if Qltb 0 a then PosInfinity else NegInfinity
  else Fin (a / b).

(** Truthiness of a number: [0] and [NaN] are falsy. *)
Definition truthy (n : number) : bool :=
  match n with
  | Fin q => negb (Qeq_bool q 0)
  | PosInfinity | NegInfinity => true
  | NaN => false
  end.

(** [n > q] for a finite [q]. *)
Definition num_gtb (n : number) (q : Q) : bool :=
  match n with
  | Fin v => Qgtb v q
  | PosInfinity => true
  | NegInfinity | NaN => false
  end.

(** [Math.max(a, b)]; [NaN] is contagious. *)
Definition num_max (a b : number) : number :=
  match a, b with
  | NaN, _ | _, NaN => NaN
  | PosInfinity, _ | _, PosInfinity => PosInfinity
  | NegInfinity, n | n, NegInfinity => n
  | Fin p, Fin q => Fin (Qmaxb p q)
  end.

(** [v || 0] for an optional number. *)
Definition or_zero (v : option number) : number :=
  match v with
  | Some n => if truthy n then n else Fin 0
  | None => Fin 0
  end.

(** Truthiness of an optional boolean ([undefined] is falsy). *)
Definition is_true (b : option bool) : bool := default false b.

(** [String(n)] for an integer in the range JavaScript prints in full. *)
Definition show (n : Z) : string := pretty n.

(** [s.includes(t)]. *)
Definition includes (s t : string) : bool :=
  match String.index 0 t s with Some _ => true | None => false end.

(** ** Data model *)

Record BoundingBox : Type := mkBoundingBox {
  bb_x : Q;
  bb_y : Q;
  bb_width : Q;
  bb_height : Q
}.

Module Detection.
Record t : Type := mk {
  id : string;
  label : string;
  confidence : Q;
  distance : Q;
  steps : Z;
  x : Q;
  y : Q;
  width : Q;
  height : Q;
  timestamp : Z;
  isMoving : option bool;
  velocity : option number;
  boundingBox : BoundingBox
}.

(** [detection.isMoving = m; detection.velocity = v], the two fields the
    tracker assigns. *)
Definition annotate (d : t) (m : bool) (v : number) : t :=
  mk (id d) (label d) (confidence d) (distance d) (steps d) (x d) (y d)
     (width d) (height d) (timestamp d) (Some m) (Some v) (boundingBox d).
End Detection.

Abbreviation Detection := Detection.t.

Inductive AlertType : Type := urgent | warning | info.

Record ProcessedAlert : Type := mkAlert {
  detection : Detection;
  priority : Q;
  shouldAnnounce : bool;
  shouldVibrate : bool;
  message : string;
  suppressUntil : option Z;
  alertType : AlertType
}.

Record AIModelConfig : Type := mkConfig {
  modelUrl : option string;
  confidenceThreshold : Q;
  iouThreshold : Q;
  maxDetections : Z;
  inputSize : Z
}.

(** The fields of the service object. *)
Record Service : Type := mkService {
  stepLength : Q;
  lastAlerts : gmap string Z;
  objectTracker : gmap string (list Detection);
  alertCooldowns : gmap string Z;
  isModelLoaded : bool;
  config : AIModelConfig
}.

Definition set_lastAlerts (s : Service) (m : gmap string Z) : Service :=
  mkService (stepLength s) m (objectTracker s) (alertCooldowns s)
            (isModelLoaded s) (config s).

Definition set_objectTracker (s : Service) (m : gmap string (list Detection))
  : Service :=
  mkService (stepLength s) (lastAlerts s) m (alertCooldowns s)
            (isModelLoaded s) (config s).

(** ** Configuration constants *)

Definition CENTER_FOV_THRESHOLD : Q := 0.25.
Definition ALERT_COOLDOWN_MS : Z := 4000.
Definition POSITION_CHANGE_THRESHOLD : Q := 0.15.
Definition CLUSTER_DISTANCE_THRESHOLD : Q := 0.8.
Definition MIN_CONFIDENCE : Q := 0.6.
Definition TRACKING_HISTORY_SIZE : nat := 5.
Definition MOVEMENT_THRESHOLD : Q := 0.05.

Definition CRITICAL_OBJECTS : list string :=
  ["person"; "car"; "bicycle"; "motorcycle"; "truck"]%string.
Definition WARNING_OBJECTS : list string :=
  ["chair"; "table"; "door"; "pole"; "stairs"; "step"]%string.
Definition INFO_OBJECTS : list string :=
  ["wall"; "tree"; "bench"; "trash can"; "sign"]%string.

(** [array.includes(s)] on string arrays. *)
Definition mem (s : string) (l : list string) : bool := bool_decide (s ∈ l).

Definition defaultConfig : AIModelConfig :=
  mkConfig None 0.6 0.5 10 416.

(** ** Construction and configuration *)

(** [new AIDetectionService(stepLength, config)].  The model is loaded by an
    asynchronous task started here; the object is returned with
    [isModelLoaded = false]. *)
Definition constructor (len : Q) (cfg : AIModelConfig) : Service :=
  mkService len ∅ ∅ ∅ false cfg.

Definition updateStepLength (s : Service) (length : Q) : Service :=
  mkService length (lastAlerts s) (objectTracker s) (alertCooldowns s)
            (isModelLoaded s) (config s).

(** [metersToSteps]: [Math.ceil(meters / (this.stepLength / 100))].  The
    quotient is the rational one, so the definition stands for the code
    when the stored step length is not zero. *)
Definition metersToSteps (s : Service) (meters : Q) : Z :=
  let stepLengthMeters := (stepLength s / 100)%Q in
  Math_ceil (meters / stepLengthMeters)%Q.

(** [handleSaveStepLength] of the settings screen, on the result of
    [parseInt] ([None] for [NaN]): the new length reaches [updateSettings]
    (and from there [updateStepLength]) only inside 40..100. *)
Definition handleSaveStepLength (newLength : option Z) : option Z :=
  match newLength with
  | Some n => if (40 <=? n) && (n <=? 100) then Some n else None
  | None => None
  end.

(** ** Stage filters *)

Definition confidenceFilter (detections : list Detection) : list Detection :=
  filter (λ d, Qgeb (Detection.confidence d) MIN_CONFIDENCE = true) detections.

Definition inCenterFOV (d : Detection) : bool :=
  let centerX := 0.5%Q in
  let distanceFromCenter := Qabs (Detection.x d - centerX) in
  Qleb distanceFromCenter CENTER_FOV_THRESHOLD.

Definition filterCenterFOV (detections : list Detection) : list Detection :=
  filter (λ d, inCenterFOV d = true) detections.

(** The callback of [filterByMovementAndProximity], with its four early
    returns in the order of the source. *)
Definition keepByMovementAndProximity (d : Detection) : bool :=
  if Detection.steps d <=? 2 then true
  else if is_true (Detection.isMoving d) && (Detection.steps d <=? 6) then true
  else if mem (Detection.label d) CRITICAL_OBJECTS && (Detection.steps d <=? 4)
       then true
  else if Qgtb (Detection.confidence d) 0.8 && (Detection.steps d <=? 5)
       then true
  else false.

Definition filterByMovementAndProximity (detections : list Detection)
  : list Detection :=
  filter (λ d, keepByMovementAndProximity d = true) detections.

(** The tracking key: the label and the tenth of the frame the centre is in. *)
Definition trackingKey (d : Detection) : string :=
  Detection.label d +:+ "_" +:+ show (Math_round (Detection.x d * 10)).

(** [history[i]], for an index inside the array. *)
Definition at_index (h : list Detection) (i : nat) : option Detection := h !! i.

(** The callback of [applyTemporalFiltering]. *)
Definition keepTemporal (s : Service) (now : Z) (d : Detection) : bool :=
  let objectType := Detection.label d in
  let lastAlertTime := default 0 (lastAlerts s !! objectType) in
  let timeSinceLastAlert := now - lastAlertTime in
  if Detection.steps d <=? 1 then true
  else if timeSinceLastAlert <? ALERT_COOLDOWN_MS then
    match objectTracker s !! trackingKey d with
    | Some history =>
        if (2 <=? length history)%nat then
          match at_index history 0, at_index history (length history - 1) with
          | Some first, Some last =>
              let movement := Qabs (Detection.x first - Detection.x last) in
              Qgtb movement POSITION_CHANGE_THRESHOLD
          | _, _ => false
          end
        else false
    | None => false
    end
  else true.

Definition applyTemporalFiltering (s : Service) (now : Z)
    (detections : list Detection) : list Detection :=
  filter (λ d, keepTemporal s now d = true) detections.

(** The cooldown test of the first-generation [DetectionService]: its own
    constants, and the positions it last alerted at, keyed by detection id. *)
Module Legacy.
Definition ALERT_COOLDOWN_MS : Z := 3000.
Definition POSITION_CHANGE_THRESHOLD : Q := 0.1.

Record Position : Type := mkPosition { px : Q; py : Q; ptime : Z }.

Section WithSqrt.
Variable sqrt : Q → Q.

Definition shouldSuppressAlert (lastPositions : gmap string Position)
    (d : Detection) (timeSinceLastAlert : Z) : bool :=
  if Detection.steps d <=? 1 then false
  else if timeSinceLastAlert <? ALERT_COOLDOWN_MS then true
  else
    match lastPositions !! Detection.id d with
    | Some lastPosition =>
        let positionChange :=
          sqrt ((Detection.x d - px lastPosition) ^ 2
                + (Detection.y d - py lastPosition) ^ 2)%Q in
        if Qltb positionChange POSITION_CHANGE_THRESHOLD then true
        else false
    | None => false
    end.
End WithSqrt.
End Legacy.

(** ** Priority scorer and alert synthesizer *)

Definition calculatePriority (d : Detection) : Q :=
  let steps := Detection.steps d in
  let p0 : Q :=
    if steps <=? 1 then 50%Q
    else if steps <=? 2 then 30%Q
    else if steps <=? 4 then 15%Q
    else inject_Z (Z.max 0 (10 - steps)) in
  let centerDistance := Qabs (Detection.x d - 0.5)%Q in
  let p1 := (p0 + (1 - centerDistance) * 10)%Q in
  let p2 :=
    if mem (Detection.label d) CRITICAL_OBJECTS then (p1 + 20)%Q
    else if mem (Detection.label d) WARNING_OBJECTS then (p1 + 10)%Q
    else if mem (Detection.label d) INFO_OBJECTS then (p1 + 5)%Q
    else p1 in
  let p3 :=
    if is_true (Detection.isMoving d) then
      let p := (p2 + 15)%Q in
      match Detection.velocity d with
      | Some v => if truthy v && num_gtb v 1 then (p + 10)%Q else p
      | None => p
      end
    else p2 in
  (p3 + Detection.confidence d * 8)%Q.

Definition determineAlertType (d : Detection) : AlertType :=
  if (Detection.steps d <=? 1)
     || (is_true (Detection.isMoving d) && (Detection.steps d <=? 2))
  then urgent
  else if (Detection.steps d <=? 3) || mem (Detection.label d) CRITICAL_OBJECTS
  then warning
  else info.

Definition generateContextualMessage (d : Detection) : string :=
  let steps := Detection.steps d in
  let label := Detection.label d in
  let m0 :=
    if steps =? 1 then "Stop! "
    else if (steps =? 2) && is_true (Detection.isMoving d) then "Caution! "
    else "" in
  let unit := if steps =? 1 then "step" else "steps" in
  let m1 :=
    if includes label "multiple" || includes label "objects"
    then m0 +:+ label +:+ " ahead in " +:+ show steps +:+ " " +:+ unit
    else m0 +:+ label +:+ " ahead in " +:+ show steps +:+ " " +:+ unit in
  let m2 :=
    if is_true (Detection.isMoving d) then
      match Detection.velocity d with
      | Some v =>
          if truthy v && num_gtb v 1.5 then m1 +:+ ", moving fast"
          else m1 +:+ ", moving"
      | None => m1 +:+ ", moving"
      end
    else m1 in
  if Qltb (Detection.x d) 0.3 then m2 +:+ " to your left"
  else if Qgtb (Detection.x d) 0.7 then m2 +:+ " to your right"
  else m2.

(** [createSmartAlert]; [os] is [Platform.OS] and [now] the [Date.now()] read
    for [suppressUntil]. *)
Definition createSmartAlert (os : string) (now : Z) (d : Detection)
  : ProcessedAlert :=
  let alertType := determineAlertType d in
  let shouldVibrate :=
    (Detection.steps d <=? 2) && negb (bool_decide (os = "web")) in
  let shouldAnnounce := Detection.steps d <=? 8 in
  let message := generateContextualMessage d in
  mkAlert d (calculatePriority d) shouldAnnounce shouldVibrate message
          (if 2 <? Detection.steps d then Some (now + ALERT_COOLDOWN_MS)
           else None)
          alertType.

(** ** Object tracker *)

(** [cleanOldTrackingData]: histories lose the observations of 10 s ago or
    older, and a key whose history empties is deleted; cooldown entries older
    than 30 s are deleted. *)
Definition cleanHistory (now : Z) (history : list Detection)
  : option (list Detection) :=
  let maxAge := 10000 in
  let filteredHistory :=
    filter (λ d, now - Detection.timestamp d < maxAge) history in
  if bool_decide (length filteredHistory = 0%nat) then None
  else Some filteredHistory.

Definition cleanOldTrackingData (now : Z) (s : Service) : Service :=
  mkService (stepLength s)
            (filter (λ kt, ¬ (30000 < now - kt.2)) (lastAlerts s))
            (omap (cleanHistory now) (objectTracker s))
            (alertCooldowns s) (isModelLoaded s) (config s).

(** [history.push(d)] followed by the bounded [history.shift()]. *)
Definition pushBounded (history : list Detection) (d : Detection)
  : list Detection :=
  let history := history ++ [d] in
  if (TRACKING_HISTORY_SIZE <? length history)%nat then tail history
  else history.

Section Tracker.
(** [Math.sqrt]. *)
Variable sqrt : Q → Q.

(** The annotation of the newest observation from the one before it; the
    history is the one after the push, [None] when it has fewer than two
    entries. *)
Definition movementOf (history : list Detection) : option (bool * number) :=
  if (2 <=? length history)%nat then
    match at_index history (length history - 2),
          at_index history (length history - 1) with
    | Some prev, Some curr =>
        let movement :=
          sqrt ((Detection.x curr - Detection.x prev) ^ 2
                + (Detection.y curr - Detection.y prev) ^ 2)%Q in
        Some (Qgtb movement MOVEMENT_THRESHOLD,
              js_div movement
                (inject_Z (Detection.timestamp curr
                           - Detection.timestamp prev) / 1000)%Q)
    | _, _ => None
    end
  else None.

(** One iteration of the [forEach] of [updateObjectTracking].  The pushed
    object and the array element are one object, so the assignment to
    [detection.isMoving] is seen through the history as well: the stored
    last entry is the annotated detection. *)
Definition trackOne (tracker : gmap string (list Detection)) (d : Detection)
  : gmap string (list Detection) * Detection :=
  let key := trackingKey d in
  let history := pushBounded (default [] (tracker !! key)) d in
  match movementOf history with
  | Some (m, v) =>
      let d' := Detection.annotate d m v in
      (<[key := removelast history ++ [d']]> tracker, d')
  | None => (<[key := history]> tracker, d)
  end.

Fixpoint trackAll (tracker : gmap string (list Detection))
    (detections : list Detection)
  : gmap string (list Detection) * list Detection :=
  match detections with
  | [] => (tracker, [])
  | d :: rest =>
      let '(tracker1, d') := trackOne tracker d in
      let '(tracker2, rest') := trackAll tracker1 rest in
      (tracker2, d' :: rest')
  end.

(** [updateObjectTracking]: the array comes back with its elements
    annotated in place; [now] is the read of [cleanOldTrackingData]. *)
Definition updateObjectTracking (now : Z) (s : Service)
    (detections : list Detection) : Service * list Detection :=
  let '(tracker, annotated) := trackAll (objectTracker s) detections in
  (cleanOldTrackingData now (set_objectTracker s tracker), annotated).
End Tracker.

(** ** Clusterer *)

(** The merge test of the inner loop. *)
Definition near (d other : Detection) : bool :=
  let stepDiff := inject_Z (Z.abs (Detection.steps d - Detection.steps other)) in
  let positionDiff := Qabs (Detection.x d - Detection.x other) in
  Qleb stepDiff CLUSTER_DISTANCE_THRESHOLD && Qleb positionDiff 0.2.

(** A cluster is an array that starts with its seed: the seed and the
    detections pushed after it. *)
Definition Cluster : Type := Detection * list Detection.

Definition members (c : Cluster) : list Detection := c.1 :: c.2.

(** One iteration of the inner loop over [other]. *)
Definition absorb (d : Detection) (acc : Cluster * gset string)
    (other : Detection) : Cluster * gset string :=
  let '(cluster, processed) := acc in
  if bool_decide (Detection.id other ∈ processed) then acc
  else if near d other
       then ((cluster.1, cluster.2 ++ [other]),
             {[Detection.id other]} ∪ processed)
       else acc.

(** One iteration of the outer loop over [detection]. *)
Definition growClusters (detections : list Detection)
    (acc : list Cluster * gset string) (d : Detection)
  : list Cluster * gset string :=
  let '(clusters, processed) := acc in
  if bool_decide (Detection.id d ∈ processed) then acc
  else
    let '(cluster, processed') :=
      foldl (absorb d) ((d, []), {[Detection.id d]} ∪ processed) detections in
    (clusters ++ [cluster], processed').

Definition buildClusters (detections : list Detection) : list Cluster :=
  (foldl (growClusters detections) ([], ∅) detections).1.

Definition criticalCount (cluster : list Detection) : nat :=
  length (filter (λ d, mem (Detection.label d) CRITICAL_OBJECTS = true) cluster).

Definition generateClusterLabel (c : Cluster) : string :=
  let cluster := members c in
  match c.2 with
  | [second] => Detection.label c.1 +:+ " and " +:+ Detection.label second
  | _ =>
      let n := criticalCount cluster in
      let others := (length cluster - n)%nat in
      if (0 <? n)%nat then
        pretty n +:+ " critical object" +:+ (if (1 <? n)%nat then "s" else "")
        +:+ " and " +:+ pretty others +:+ " other"
        +:+ (if (1 <? others)%nat then "s" else "")
      else pretty (length cluster) +:+ " objects"
  end.

(** [cluster.reduce((prev, curr) => curr.steps < prev.steps ? curr : prev)]:
    the first member of least steps. *)
Definition closestOf (c : Cluster) : Detection :=
  foldl (λ prev curr,
           if Detection.steps curr <? Detection.steps prev then curr else prev)
        c.1 c.2.

(** The callback of [clusters.map]; [now] is the [Date.now()] read for the
    id of a merged detection. *)
Definition representative (now : Z) (c : Cluster) : Detection :=
  match c.2 with
  | [] => c.1
  | _ =>
      let cluster := members c in
      let closest := closestOf c in
      let hasMoving := existsb (λ d, is_true (Detection.isMoving d)) cluster in
      Detection.mk
        ("cluster_" +:+ pretty (length cluster) +:+ "_" +:+ show now)
        (generateClusterLabel c)
        (foldl Qmaxb (Detection.confidence c.1) (Detection.confidence <$> c.2))
        (Detection.distance closest) (Detection.steps closest)
        (Detection.x closest) (Detection.y closest)
        (Detection.width closest) (Detection.height closest)
        (Detection.timestamp closest)
        (Some hasMoving)
        (Some (if hasMoving
               then foldl num_max (or_zero (Detection.velocity c.1))
                          (or_zero ∘ Detection.velocity <$> c.2)
               else Fin 0))
        (Detection.boundingBox closest)
  end.

(** [clusterNearbyObjects]; [now i] is the [Date.now()] read while the
    [i]-th cluster is mapped. *)
Definition clusterNearbyObjects (now : nat → Z) (detections : list Detection)
  : list Detection :=
  if (length detections <=? 1)%nat then detections
  else imap (λ i c, representative (now i) c) (buildClusters detections).

(** ** Alert generation *)

(** [Array.prototype.sort] with a comparator: stable, an element goes before
    the ones that followed it unless the comparator is positive. *)
Section Sort.
Context {A : Type} (compare : A → A → Q).

Fixpoint insertSorted (a : A) (sorted : list A) : list A :=
  match sorted with
  | [] => [a]
  | b :: rest =>
      if Qleb (compare a b) 0 then a :: sorted
      else b :: insertSorted a rest
  end.

Definition sortBy (l : list A) : list A := foldr insertSorted [] l.
End Sort.

Definition prioritize (detections : list Detection) : list (Detection * Q) :=
  sortBy (λ a b, b.2 - a.2)%Q ((λ d, (d, calculatePriority d)) <$> detections).

(** [generateSmartAlerts]; [tAlert] is the read of [createSmartAlert] and
    [tSet] the one stored in [lastAlerts]. *)
Definition generateSmartAlerts (os : string) (tAlert tSet : Z) (s : Service)
    (detections : list Detection) : Service * list ProcessedAlert :=
  if bool_decide (length detections = 0%nat) then (s, [])
  else
    match prioritize detections with
    | [] => (s, [])
    | topDetection :: _ =>
        let alert := createSmartAlert os tAlert topDetection.1 in
        (set_lastAlerts s
           (<[Detection.label topDetection.1 := tSet]> (lastAlerts s)),
         [alert])
    end.

(** ** The pipeline *)

(** The [Date.now()] reads of one tick, in the order they are made. *)
Record Clock : Type := mkClock {
  t_clean : Z;
  t_cluster : nat → Z;
  t_filter : Z;
  t_alert : Z;
  t_set : Z
}.

Section Pipeline.
Variable sqrt : Q → Q.
Variable os : string.

Definition applyDetectionPipeline (clk : Clock) (s : Service)
    (detections : list Detection) : Service * list Detection :=
  let filtered := confidenceFilter detections in
  let filtered := filterCenterFOV filtered in
  let '(s, filtered) := updateObjectTracking sqrt (t_clean clk) s filtered in
  let filtered := filterByMovementAndProximity filtered in
  let filtered := clusterNearbyObjects (t_cluster clk) filtered in
  let filtered := applyTemporalFiltering s (t_filter clk) filtered in
  (s, filtered).

(** [processDetections], from the detections the Detector produced for the
    frame (both branches of the source take them from the simulated
    Detector).  The stages raise no exception, so the [catch] branch, which
    returns the empty array, is never entered. *)
Definition processDetections (clk : Clock) (s : Service)
    (rawDetections : list Detection) : Service * list ProcessedAlert :=
  let '(s, filteredDetections) := applyDetectionPipeline clk s rawDetections in
  generateSmartAlerts os (t_alert clk) (t_set clk) s filteredDetections.
End Pipeline.

(** ** The simulated Detector *)

(** The [Math.random()] reads of one [createRealisticDetection], each in
    [0, 1); [r_suffix] is the random tail of the id. *)
Record Draws : Type := mkDraws {
  r_label : Q;
  r_band : Q;
  r_distance : Q;
  r_confidence : Q;
  r_x : Q;
  r_y : Q;
  r_moving : Q;
  r_velocity : Q;
  r_suffix : string;
  r_width : Q;
  r_height : Q;
  r_bwidth : Q;
  r_bheight : Q
}.

Definition objectTypes : list string :=
  CRITICAL_OBJECTS ++ WARNING_OBJECTS ++ INFO_OBJECTS.

Definition createRealisticDetection (s : Service) (timestamp : Z) (r : Draws)
  : Detection :=
  let label :=
    default ""%string
      (objectTypes
         !! Z.to_nat (Qfloor (r_label r
                               * inject_Z (Z.of_nat (length objectTypes))))) in
  let distanceRandom := r_band r in
  let distance : Q :=
    if Qltb distanceRandom 0.1 then (0.5 + r_distance r * 1)%Q
    else if Qltb distanceRandom 0.3 then (1.5 + r_distance r * 1.5)%Q
    else (3 + r_distance r * 4)%Q in
  let steps := metersToSteps s distance in
  let confidence := (0.6 + r_confidence r * 0.3)%Q in
  let confidence := if Qgtb distance 5 then (confidence * 0.8)%Q else confidence in
  let confidence :=
    if mem label CRITICAL_OBJECTS then (confidence + 0.1)%Q else confidence in
  let x := (0.3 + r_x r * 0.4)%Q in
  let y := (0.2 + r_y r * 0.6)%Q in
  let isMoving := Qltb (r_moving r) 0.2 in
  let velocity : Q := if isMoving then (r_velocity r * 1.5 + 0.5)%Q else 0%Q in
  Detection.mk
    (label +:+ "_" +:+ show timestamp +:+ "_" +:+ r_suffix r)
    label
    (if Qleb confidence 1 then confidence else 1%Q)
    distance steps x y
    (0.1 + r_width r * 0.2)%Q (0.15 + r_height r * 0.25)%Q
    timestamp (Some isMoving) (Some (Fin velocity))
    (mkBoundingBox (x - 0.05) (y - 0.075)
                   (0.1 + r_bwidth r * 0.2) (0.15 + r_bheight r * 0.25)).

(** ** The rest of the service *)

(** [clearTrackingData]: the three maps are emptied. *)
Definition clearTrackingData (s : Service) : Service :=
  mkService (stepLength s) ∅ ∅ ∅ (isModelLoaded s) (config s).

(** [generateRealisticDetections]: no object when the first draw is below
    0.7, else one when the second is below 0.8, else two; [first] and
    [second] are the draws of the objects. *)
Definition generateRealisticDetections (s : Service) (now : Z)
    (r_none r_one : Q) (first second : Draws) : list Detection :=
  let numObjects :=
    if Qltb r_none 0.7 then 0%nat else if Qltb r_one 0.8 then 1%nat else 2%nat in
  take numObjects
       [createRealisticDetection s now first;
        createRealisticDetection s now second].

(** ** The camera screen that drives the service *)

(** The settings the tick callback reads. *)
Record Settings : Type := mkSettings {
  audioEnabled : bool;
  hapticEnabled : bool;
  announcementDelay : Q
}.

(** What one run of the callback does with the alerts of the tick: the
    alert it displays, the message it speaks, whether it vibrates, and the
    time of the last announcement it leaves behind. *)
Record Actuation : Type := mkActuation {
  currentAlert : option ProcessedAlert;
  spoken : option string;
  vibrated : bool;
  lastAnnouncementTime : Z
}.

(** The body of the [processDetections] callback of [startDetection] after
    the service returned [alerts]; [now] is its [Date.now()] read and
    [lastAnnouncement] the value of [lastAnnouncementTime.current]. *)
Definition handleAlerts (os : string) (settings : Settings) (now : Z)
    (lastAnnouncement : Z) (alerts : list ProcessedAlert) : Actuation :=
  match alerts with
  | topAlert :: _ =>
      let timeSinceLastAnnouncement := now - lastAnnouncement in
      let shouldAnnounce :=
        shouldAnnounce topAlert
        && (Qgtb (inject_Z timeSinceLastAnnouncement)
                 (announcementDelay settings * 1000)
            || match alertType topAlert with urgent => true | _ => false end) in
      let speaks := shouldAnnounce && audioEnabled settings in
      mkActuation
        (Some topAlert)
        (if speaks then Some (message topAlert) else None)
        (shouldVibrate topAlert && hapticEnabled settings
         && negb (bool_decide (os = "web")))
        (if speaks then now else lastAnnouncement)
  | [] => mkActuation None None false lastAnnouncement
  end.

(** ** The grouping loops, for any merge test *)

(** The two loops of [clusterNearbyObjects] are the same in both services
    up to the thresholds of the merge test [nr]. *)
Section Grouping.
Variable nr : Detection → Detection → bool.

Definition absorbBy (d : Detection) (acc : Cluster * gset string)
    (other : Detection) : Cluster * gset string :=
  let '(cluster, processed) := acc in
  if bool_decide (Detection.id other ∈ processed) then acc
  else if nr d other
       then ((cluster.1, cluster.2 ++ [other]),
             {[Detection.id other]} ∪ processed)
       else acc.

Definition growClustersBy (detections : list Detection)
    (acc : list Cluster * gset string) (d : Detection)
  : list Cluster * gset string :=
  let '(clusters, processed) := acc in
  if bool_decide (Detection.id d ∈ processed) then acc
  else
    let '(cluster, processed') :=
      foldl (absorbBy d) ((d, []), {[Detection.id d]} ∪ processed)
            detections in
    (clusters ++ [cluster], processed').

Definition buildClustersBy (detections : list Detection) : list Cluster :=
  (foldl (growClustersBy detections) ([], ∅) detections).1.
End Grouping.

(** ** The first-generation service *)

Module LegacyService.
Definition CENTER_FOV_THRESHOLD : Q := 0.35.
Definition CLUSTER_DISTANCE_THRESHOLD : Q := 1.

Record Alert : Type := mkAlert {
  detection : Detection;
  priority : Q;
  shouldAnnounce : bool;
  shouldVibrate : bool;
  message : string;
  suppressUntil : option Z
}.

(** The two maps the alert filter reads and writes. *)
Record State : Type := mkState {
  lastAlerts : gmap string Z;
  lastPositions : gmap string Legacy.Position
}.

Definition filterCenterFOV (detections : list Detection) : list Detection :=
  filter (λ d, Qleb (Qabs (Detection.x d - 0.5)) CENTER_FOV_THRESHOLD = true)
         detections.

Definition near (d other : Detection) : bool :=
  let stepDiff := inject_Z (Z.abs (Detection.steps d - Detection.steps other)) in
  let positionDiff := Qabs (Detection.x d - Detection.x other) in
  Qleb stepDiff CLUSTER_DISTANCE_THRESHOLD && Qleb positionDiff 0.2.

(** The callback of [clusters.map]: the closest member with a new id and
    label and the greatest confidence; the service's detections carry no
    bounding box, the field is copied along. *)
Definition representative (c : Cluster) : Detection :=
  match c.2 with
  | [] => c.1
  | second :: _ =>
      let cluster := members c in
      let closest := closestOf c in
      Detection.mk
        ("cluster_" +:+ pretty (length cluster) +:+ "_"
         +:+ show (Detection.steps closest))
        (if (2 <? length cluster)%nat then "multiple objects"
         else Detection.label c.1 +:+ " and " +:+ Detection.label second)
        (foldl Qmaxb (Detection.confidence c.1) (Detection.confidence <$> c.2))
        (Detection.distance closest) (Detection.steps closest)
        (Detection.x closest) (Detection.y closest)
        (Detection.width closest) (Detection.height closest)
        (Detection.timestamp closest)
        (Detection.isMoving closest) (Detection.velocity closest)
        (Detection.boundingBox closest)
  end.

Definition clusterNearbyObjects (detections : list Detection)
  : list Detection :=
  if (length detections <=? 1)%nat then detections
  else representative <$> buildClustersBy near detections.

Definition calculatePriority (d : Detection) : Q :=
  let p0 := inject_Z (Z.max 0 (10 - Detection.steps d)) in
  let centerDistance := Qabs (Detection.x d - 0.5)%Q in
  let p1 := (p0 + (1 - centerDistance) * 5)%Q in
  let p2 := if is_true (Detection.isMoving d) then (p1 + 8)%Q else p1 in
  let criticalObjects := ["person"; "car"; "door"]%string in
  let p3 := if mem (Detection.label d) criticalObjects then (p2 + 5)%Q else p2 in
  (p3 + Detection.confidence d * 3)%Q.

(** [prioritizeDetections]; the [priority] property it adds to the copies
    is not read again. *)
Definition prioritizeDetections (detections : list Detection)
  : list Detection :=
  fst <$> sortBy (λ a b, b.2 - a.2)%Q
                 ((λ d, (d, calculatePriority d)) <$> detections).

(** [createAlert]; [now] is the read for [suppressUntil]. *)
Definition createAlert (now : Z) (d : Detection) : Alert :=
  let shouldVibrate := Detection.steps d <=? 2 in
  let shouldAnnounce := Detection.steps d <=? 6 in
  let unit := if Detection.steps d =? 1 then "step" else "steps" in
  let message :=
    if includes (Detection.label d) "multiple"
    then Detection.label d +:+ " ahead in " +:+ show (Detection.steps d)
         +:+ " " +:+ unit
    else Detection.label d +:+ " ahead in " +:+ show (Detection.steps d)
         +:+ " " +:+ unit in
  let message :=
    if Detection.steps d =? 1 then "Warning! " +:+ message else message in
  mkAlert d (calculatePriority d) shouldAnnounce shouldVibrate message
          (if 2 <? Detection.steps d
           then Some (now + Legacy.ALERT_COOLDOWN_MS) else None).

Section WithSqrt.
Variable sqrt : Q → Q.

(** [applyAlertFiltering]; [now] is its own read and [tAlert] the one of
    [createAlert]. *)
Definition applyAlertFiltering (now tAlert : Z) (st : State)
    (detections : list Detection) : State * list Alert :=
  match detections with
  | [] => (st, [])
  | topDetection :: _ =>
      let objectType := Detection.label topDetection in
      let lastAlertTime := default 0 (lastAlerts st !! objectType) in
      let timeSinceLastAlert := now - lastAlertTime in
      let shouldSuppress :=
        Legacy.shouldSuppressAlert sqrt (lastPositions st) topDetection
                                   timeSinceLastAlert in
      if shouldSuppress then (st, [])
      else
        let alert := createAlert tAlert topDetection in
        (mkState
           (<[objectType := now]> (lastAlerts st))
           (<[Detection.id topDetection :=
                Legacy.mkPosition (Detection.x topDetection)
                                  (Detection.y topDetection) now]>
              (lastPositions st)),
         [alert])
  end.

(** [processDetections], from the detections [simulateDetection] drew. *)
Definition processDetections (now tAlert : Z) (st : State)
    (rawDetections : list Detection) : State * list Alert :=
  let centerDetections := filterCenterFOV rawDetections in
  let clusteredDetections := clusterNearbyObjects centerDetections in
  let prioritizedDetections := prioritizeDetections clusteredDetections in
  applyAlertFiltering now tAlert st prioritizedDetections.
End WithSqrt.

(** [clearOldTrackingData]: both maps lose the entries older than 30 s. *)
Definition clearOldTrackingData (now : Z) (st : State) : State :=
  let maxAge := 30000 in
  mkState (filter (λ kt, ¬ (maxAge < now - kt.2)) (lastAlerts st))
          (filter (λ kp, ¬ (maxAge < now - Legacy.ptime kp.2))
                  (lastPositions st)).
End LegacyService.

(** ** Vocabulary of the statements *)

(** The four conditions of the whitelist of the proximity/movement filter. *)
Definition relevant (d : Detection) : Prop :=
  Detection.steps d ≤ 2
  ∨ (is_true (Detection.isMoving d) = true ∧ Detection.steps d ≤ 6)
  ∨ (Detection.label d ∈ CRITICAL_OBJECTS ∧ Detection.steps d ≤ 4)
  ∨ ((0.8 < Detection.confidence d)%Q ∧ Detection.steps d ≤ 5).

(** The number of observations stored under a key ([0] for an absent key). *)
Definition historyLength (tracker : gmap string (list Detection))
    (key : string) : nat :=
  length (default [] (tracker !! key)).

(** Detections in which no two distinct ids satisfy the merge test. *)
Definition separate (l : list Detection) : Prop :=
  ∀ a b, a ∈ l → b ∈ l → Detection.id a ≠ Detection.id b → near a b = false.

(** A boolean test for [separate]. *)
Definition separateb (l : list Detection) : bool :=
  forallb (λ a,
    forallb (λ b,
      bool_decide (Detection.id a = Detection.id b) || negb (near a b)) l) l.

(** The third condition of the temporal filter: two or more observations
    are stored under the key of the detection, and the earliest and the
    latest of them are more than the position threshold apart in [x]. *)
Definition movedSinceEarliest (s : Service) (d : Detection) : Prop :=
  ∃ history first last,
    objectTracker s !! trackingKey d = Some history
    ∧ (2 ≤ length history)%nat
    ∧ history !! 0%nat = Some first
    ∧ history !! (length history - 1)%nat = Some last
    ∧ (POSITION_CHANGE_THRESHOLD
       < Qabs (Detection.x first - Detection.x last))%Q.

(** Every stored history is within the capacity of the tracker. *)
Definition bounded (tracker : gmap string (list Detection)) : Prop :=
  ∀ key history,
    tracker !! key = Some history →
    (length history ≤ TRACKING_HISTORY_SIZE)%nat.

(** The ids of a list of detections. *)
Definition idsOf (l : list Detection) : gset string :=
  list_to_set (Detection.id <$> l).

(** The detections of [l] the loops have not yet put in a cluster. *)
Definition unprocessed (processed : gset string) (l : list Detection)
  : list Detection :=
  filter (λ o, Detection.id o ∉ processed) l.

(** The detections one run of the inner loop pushes on the cluster of [d]. *)
Fixpoint absorbed (nr : Detection → Detection → bool) (d : Detection)
    (processed : gset string) (others : list Detection) : list Detection :=
  match others with
  | [] => []
  | o :: others =>
      if bool_decide (Detection.id o ∈ processed)
      then absorbed nr d processed others
      else if nr d o
           then o :: absorbed nr d ({[Detection.id o]} ∪ processed) others
           else absorbed nr d processed others
  end.

(** Two detections that differ at most in [isMoving] and [velocity]. *)
Definition sameButMovement (d d' : Detection) : Prop :=
  Detection.annotate d' true (Fin 0) = Detection.annotate d true (Fin 0).

(** The detection [d] at another step count. *)
Definition withSteps (d : Detection) (steps : Z) : Detection :=
  Detection.mk (Detection.id d) (Detection.label d) (Detection.confidence d)
               (Detection.distance d) steps (Detection.x d) (Detection.y d)
               (Detection.width d) (Detection.height d)
               (Detection.timestamp d) (Detection.isMoving d)
               (Detection.velocity d) (Detection.boundingBox d).

(** What the pipeline guarantees of a detection it alerts for: in the
    centre of the frame, within six steps, of sufficient confidence. *)
Definition alertWorthy (d : Detection) : Prop :=
  (Qabs (Detection.x d - 0.5) <= CENTER_FOV_THRESHOLD)%Q
  ∧ Detection.steps d ≤ 6
  ∧ (MIN_CONFIDENCE <= Detection.confidence d)%Q.

(** Every draw of the simulated Detector is in [0, 1). *)
Definition unitDraw (r : Q) : Prop := (0 <= r)%Q ∧ (r < 1)%Q.


(** ** Example data *)

(** A rational lower approximation of the square root, to three decimals;
    it stands for [Math.sqrt] in the closed examples. *)
Definition sqrt_lower (q : Q) : Q :=
  inject_Z (Z.sqrt (Qfloor (q * 1000000))) / 1000.

(** The time of the examples, in milliseconds since the epoch. *)
Definition t0 : Z := 1700000000000.

(** A clock whose reads within the tick all give [t]. *)
Definition clockAt (t : Z) : Clock := mkClock t (λ _, t) t t t.

Definition freshService : Service := constructor 65 defaultConfig.

(** A service that alerted for "chair" one second before [t0], and a chair
    one step away seen at [t0], inside the cooldown. *)
Definition recentChair : Service :=
  set_lastAlerts freshService {["chair"%string := t0 - 1000]}.

Definition chairAtOneStep : Detection :=
  Detection.mk "chair_1700000000000_k3x9a" "chair" 0.9 0.6 1 0.5 0.5 0.2 0.3
               t0 None None (mkBoundingBox 0.45 0.425 0.2 0.3).

(** A service whose last alert for "chair" is 40 s old at [t0]. *)
Definition staleChair : Service :=
  set_lastAlerts freshService {["chair"%string := t0 - 40000]}.

(** A detection the simulated Detector produces with [isMoving = true]
    (its draw for movement is below 0.2), never seen before. *)
Definition movingDraws : Draws :=
  mkDraws 0.5 0.2 0.5 0.5 0.5 0.5 0.1 0.6 "k3x9a" 0.5 0.5 0.5 0.5.

Definition rawMoving : Detection :=
  createRealisticDetection freshService t0 movingDraws.

(** A door stored 20 s before [t0], and the same door seen again at [t0],
    lower in the frame, by a service that did not tick in between. *)
Definition oldDoor : Detection :=
  Detection.mk "door_1699999980000_aaaaa" "door" 0.9 1.9 3 0.5 0.2 0.2 0.3
               (t0 - 20000) None None (mkBoundingBox 0.45 0.125 0.2 0.3).

Definition newDoor : Detection :=
  Detection.mk "door_1700000000000_bbbbb" "door" 0.9 1.9 3 0.5 0.5 0.2 0.3
               t0 None None (mkBoundingBox 0.45 0.425 0.2 0.3).

Definition pausedService : Service :=
  set_objectTracker freshService {[trackingKey oldDoor := [oldDoor]]}.

(** Three objects at three steps, 0.15 apart from left to right: the middle
    one is within reach of both ends, the ends are not within reach of each
    other. *)
Definition chairLeft : Detection :=
  Detection.mk "chair_1700000000000_aaaaa" "chair" 0.9 1.9 3 0.35 0.5 0.2 0.3
               t0 None None (mkBoundingBox 0.3 0.425 0.2 0.3).

Definition tableMid : Detection :=
  Detection.mk "table_1700000000000_bbbbb" "table" 0.85 1.9 3 0.5 0.5 0.2 0.3
               t0 None None (mkBoundingBox 0.45 0.425 0.2 0.3).

Definition doorRight : Detection :=
  Detection.mk "door_1700000000000_ccccc" "door" 0.8 1.9 3 0.65 0.5 0.2 0.3
               t0 None None (mkBoundingBox 0.6 0.425 0.2 0.3).

(** The two detections of the priority scenario: a person one step away and
    a chair five steps away, both straight ahead. *)
Definition personAhead : Detection :=
  Detection.mk "person_1700000000000_eeeee" "person" 0.9 0.6 1 0.5 0.5 0.2 0.3
               t0 None None (mkBoundingBox 0.45 0.425 0.2 0.3).

Definition chairAhead : Detection :=
  Detection.mk "chair_1700000000000_fffff" "chair" 0.9 3.2 5 0.5 0.5 0.2 0.3
               t0 None None (mkBoundingBox 0.45 0.425 0.2 0.3).

(** The person of the scenario, seen again 1.2 s later. *)
Definition personLater : Detection :=
  Detection.mk "person_1700000001200_hhhhh" "person" 0.9 0.6 1 0.5 0.5 0.2 0.3
               (t0 + 1200) None None (mkBoundingBox 0.45 0.425 0.2 0.3).

(** A chair three steps away, seen by the first-generation service. *)
Definition legacyChair : Detection :=
  Detection.mk "k3x9a7q2m" "chair" 0.9 1.9 3 0.5 0.5 0.2 0.3 t0
               (Some false) (Some (Fin 0)) (mkBoundingBox 0 0 0 0).

Definition legacyFresh : LegacyService.State := LegacyService.mkState ∅ ∅.

Definition defaultSettings : Settings := mkSettings true true 4.0.

(** A chair three steps away. *)
Definition chairAtThreeSteps : Detection :=
  Detection.mk "chair_1700000000000_ggggg" "chair" 0.9 1.9 3 0.5 0.5 0.2 0.3
               t0 None None (mkBoundingBox 0.45 0.425 0.2 0.3).

(** A door five steps away, out of reach of the chair at three. *)
Definition doorFar : Detection :=
  Detection.mk "door_1700000000000_ddddd" "door" 0.8 3.2 5 0.4 0.5 0.2 0.3
               t0 None None (mkBoundingBox 0.35 0.425 0.2 0.3).

(** * Properties *)

(** ** Boolean comparisons on rationals *)

Lemma Qleb_le (a b : Q) : Qleb a b = true ↔ (a <= b)%Q.
Proof. apply Qle_bool_iff. Qed.

Lemma Qgtb_lt (a b : Q) : Qgtb a b = true ↔ (b < a)%Q.
Proof.
  unfold Qgtb, Qltb. rewrite negb_true_iff, <- not_true_iff_false.
  rewrite Qle_bool_iff. split; [apply Qnot_le_lt | apply Qlt_not_le].
Qed.

Lemma mem_elem_of (s : string) (l : list string) : mem s l = true ↔ s ∈ l.
Proof. unfold mem. apply bool_decide_eq_true. Qed.

(** ** The temporal cooldown filter *)

Lemma keepTemporal_close (s : Service) (now : Z) (d : Detection) :
  Detection.steps d ≤ 1 → keepTemporal s now d = true.
Proof.
  intros Hsteps. unfold keepTemporal.
  apply Z.leb_le in Hsteps. by rewrite Hsteps.
Qed.

(** C1. Every detection of the input with [steps <= 1] is in the output of
    the temporal cooldown filter, whatever the cooldown table and the
    tracker hold and whatever the time; on the same condition the cooldown
    test of the first-generation service never suppresses. *)
Theorem temporal_filter_never_drops_close (s : Service) (now : Z)
    (detections : list Detection) (d : Detection) :
  d ∈ detections →
  Detection.steps d ≤ 1 →
  d ∈ applyTemporalFiltering s now detections
  ∧ ∀ sqrt lastPositions timeSinceLastAlert,
      Legacy.shouldSuppressAlert sqrt lastPositions d timeSinceLastAlert = false.
Proof.
  intros Hin Hsteps. split.
  - unfold applyTemporalFiltering. apply list_elem_of_filter.
    split; [by apply keepTemporal_close | done].
  - intros sqrt lastPositions t. unfold Legacy.shouldSuppressAlert.
    apply Z.leb_le in Hsteps. by rewrite Hsteps.
Qed.

(** C1 at work: a chair one step away passes one second after an alert for
    "chair", well inside the cooldown. *)
Lemma temporal_filter_never_drops_close_witness :
  chairAtOneStep ∈ [chairAtOneStep]
  ∧ Detection.steps chairAtOneStep ≤ 1
  ∧ t0 - default 0 (lastAlerts recentChair !! "chair"%string)
    < ALERT_COOLDOWN_MS
  ∧ chairAtOneStep ∈ applyTemporalFiltering recentChair t0 [chairAtOneStep].
Proof.
  assert (Hin : chairAtOneStep ∈ [chairAtOneStep]) by apply list_elem_of_here.
  assert (Hsteps : Detection.steps chairAtOneStep ≤ 1) by (simpl; lia).
  split; [exact Hin |]. split; [exact Hsteps |].
  split; [vm_compute; reflexivity |].
  exact (proj1 (temporal_filter_never_drops_close
                  recentChair t0 [chairAtOneStep] chairAtOneStep Hin Hsteps)).
Defined.

(** ** The proximity and movement filter *)

Lemma keepByMovementAndProximity_spec (d : Detection) :
  keepByMovementAndProximity d = true ↔ relevant d.
Proof.
  unfold keepByMovementAndProximity, relevant.
  rewrite <- mem_elem_of, <- Qgtb_lt, <- !Z.leb_le.
  destruct (Detection.steps d <=? 2); [intuition |].
  destruct (is_true (Detection.isMoving d)), (Detection.steps d <=? 6);
    simpl; [intuition | | |].
  all: destruct (mem (Detection.label d) CRITICAL_OBJECTS),
         (Detection.steps d <=? 4); simpl; [intuition | | | ..].
  all: destruct (Qgtb (Detection.confidence d) 0.8),
         (Detection.steps d <=? 5); simpl; intuition congruence.
Qed.

(** C3. The proximity/movement filter keeps a detection of its input if and
    only if one of the four conditions holds ([steps <= 2]; moving and
    [steps <= 6]; critical label and [steps <= 4]; confidence above 0.8 and
    [steps <= 5]); a detection that meets none of them is dropped. *)
Theorem filterByMovementAndProximity_keeps_iff
    (detections : list Detection) (d : Detection) :
  (d ∈ filterByMovementAndProximity detections ↔ d ∈ detections ∧ relevant d)
  ∧ (¬ relevant d ↔ keepByMovementAndProximity d = false).
Proof.
  split.
  - unfold filterByMovementAndProximity.
    rewrite list_elem_of_filter, keepByMovementAndProximity_spec. tauto.
  - rewrite <- keepByMovementAndProximity_spec.
    destruct (keepByMovementAndProximity d); intuition congruence.
Qed.

(** ** The alert synthesizer *)

(** C9. For the detection with label "door", x = 0.2, three steps, moving at
    2.0 m/s (whatever its other fields), the synthesizer writes "door ahead
    in 3 steps, moving fast to your left" and classes the alert as a
    warning; "door" is not a critical label, so the class comes from the
    [steps <= 3] rule. *)
Theorem door_scenario (id : string) (confidence distance y width height : Q)
    (timestamp : Z) (box : BoundingBox) (os : string) (now : Z) :
  let door :=
    Detection.mk id "door" confidence distance 3 0.2 y width height timestamp
                 (Some true) (Some (Fin 2.0)) box in
  generateContextualMessage door
    = "door ahead in 3 steps, moving fast to your left"%string
  ∧ determineAlertType door = warning
  ∧ message (createSmartAlert os now door)
    = "door ahead in 3 steps, moving fast to your left"%string
  ∧ alertType (createSmartAlert os now door) = warning
  ∧ ("door"%string ∉ CRITICAL_OBJECTS)
  ∧ (Detection.steps door <=? 1) = false
  ∧ (Detection.steps door <=? 3) = true.
Proof.
  intros door. repeat split; try reflexivity.
  apply (proj1 (not_iff_compat (mem_elem_of _ _))). discriminate.
Qed.

(** C10. The alert carries [suppressUntil], the time read plus the cooldown,
    exactly when the detection is more than two steps away; within two
    steps the field is absent. *)
Theorem createSmartAlert_suppressUntil (os : string) (now : Z) (d : Detection) :
  (2 < Detection.steps d
   ↔ suppressUntil (createSmartAlert os now d) = Some (now + ALERT_COOLDOWN_MS))
  ∧ (Detection.steps d ≤ 2 ↔ suppressUntil (createSmartAlert os now d) = None).
Proof.
  unfold createSmartAlert; simpl.
  destruct (Z.ltb_spec 2 (Detection.steps d)); split; split;
    intros; try done; lia.
Qed.

(** ** At most one alert *)

Lemma generateSmartAlerts_length (os : string) (tAlert tSet : Z) (s : Service)
    (detections : list Detection) :
  (length (generateSmartAlerts os tAlert tSet s detections).2 ≤ 1)%nat.
Proof.
  unfold generateSmartAlerts.
  case_bool_decide; [simpl; lia |].
  destruct (prioritize detections); simpl; lia.
Qed.

(** C2. One tick emits at most one alert, whatever the detections: the list
    [processDetections] returns, and the list [generateSmartAlerts] returns
    for any filtered set, has length 0 or 1. *)
Theorem at_most_one_alert_per_tick (sqrt : Q → Q) (os : string) (clk : Clock)
    (s : Service) (rawDetections : list Detection) :
  (length (processDetections sqrt os clk s rawDetections).2 ≤ 1)%nat
  ∧ ∀ tAlert tSet s' detections,
      (length (generateSmartAlerts os tAlert tSet s' detections).2 ≤ 1)%nat.
Proof.
  split; [| intros; apply generateSmartAlerts_length].
  unfold processDetections.
  destruct (applyDetectionPipeline sqrt clk s rawDetections) as [s1 filtered].
  apply generateSmartAlerts_length.
Qed.

(** ** Step length and step counts *)

(** Against C4 as stated: the step length [-65] is accepted by the
    constructor and [0] by [updateStepLength]; the step count is then
    computed with the stored value, here a negative count, also inside the
    simulated Detector. *)
Lemma nonpositive_step_length_accepted :
  stepLength (constructor (-65) defaultConfig) = (-65)%Q
  ∧ stepLength (updateStepLength freshService 0) = 0%Q
  ∧ metersToSteps (constructor (-65) defaultConfig) 1.3 = -2
  ∧ Detection.steps
      (createRealisticDetection (constructor (-65) defaultConfig) t0 movingDraws)
    = -3.
Proof. repeat split. Qed.

Lemma handleSaveStepLength_spec (parsed : option Z) (n : Z) :
  handleSaveStepLength parsed = Some n ↔ parsed = Some n ∧ 40 ≤ n ≤ 100.
Proof.
  destruct parsed as [m |]; simpl; [| by split; [| intros [? _]]].
  destruct (Z.leb_spec 40 m), (Z.leb_spec m 100); simpl;
    (split; [intros [= <-] | intros [[= <-] ?]]); try done; lia.
Qed.

(** C4, as the code has it. Neither the constructor nor [updateStepLength]
    validates: both store the step length they are given, whatever its sign,
    and leave every other field alone, and [metersToSteps] works from the
    stored value alone.  The only range check is the one of the settings
    screen, whose save handler passes a length on exactly when it lies in
    40..100. *)
Theorem step_length_stored_unchecked (len : Q) (cfg : AIModelConfig)
    (s : Service) (meters : Q) (parsed : option Z) (n : Z) :
  stepLength (constructor len cfg) = len
  ∧ updateStepLength s len
    = mkService len (lastAlerts s) (objectTracker s) (alertCooldowns s)
                (isModelLoaded s) (config s)
  ∧ metersToSteps (updateStepLength s len) meters
    = metersToSteps (constructor len cfg) meters
  ∧ (handleSaveStepLength parsed = Some n ↔ parsed = Some n ∧ 40 ≤ n ≤ 100).
Proof.
  split; [reflexivity |]. split; [reflexivity |]. split; [reflexivity |].
  apply handleSaveStepLength_spec.
Qed.





(** ** The cooldown table *)

Lemma generateSmartAlerts_lastAlerts (os : string) (tAlert tSet : Z)
    (s : Service) (detections : list Detection) :
  let r := generateSmartAlerts os tAlert tSet s detections in
  match r.2 with
  | [] => lastAlerts r.1 = lastAlerts s
  | alert :: _ =>
      lastAlerts r.1
      = <[Detection.label (detection alert) := tSet]> (lastAlerts s)
  end.
Proof.
  unfold generateSmartAlerts. case_bool_decide; [done |].
  by destruct (prioritize detections).
Qed.

Lemma trackAll_lastAlerts (sqrt : Q → Q) (now : Z) (s : Service)
    (detections : list Detection) :
  lastAlerts (updateObjectTracking sqrt now s detections).1
  = filter (λ kt, ¬ (30000 < now - kt.2)) (lastAlerts s).
Proof.
  unfold updateObjectTracking.
  by destruct (trackAll sqrt (objectTracker s) detections).
Qed.

Lemma applyDetectionPipeline_lastAlerts (sqrt : Q → Q) (clk : Clock)
    (s : Service) (detections : list Detection) :
  lastAlerts (applyDetectionPipeline sqrt clk s detections).1
  = filter (λ kt, ¬ (30000 < t_clean clk - kt.2)) (lastAlerts s).
Proof.
  unfold applyDetectionPipeline.
  pose proof (trackAll_lastAlerts sqrt (t_clean clk) s
                (filterCenterFOV (confidenceFilter detections))) as H.
  by destruct (updateObjectTracking _ _ _ _).
Qed.

(** Against C7 as stated: a tick without detections emits no alert and
    still changes the cooldown table: the entry of "chair", older than 30 s,
    is evicted. *)
Lemma quiet_tick_evicts_cooldown_entry :
  let r := processDetections sqrt_lower "ios" (clockAt t0) staleChair [] in
  r.2 = []
  ∧ lastAlerts staleChair !! "chair"%string = Some (t0 - 40000)
  ∧ lastAlerts r.1 !! "chair"%string = None.
Proof. vm_compute. repeat split. Qed.

(** C7, as the code has it. The cooldown table is a map keyed by label.  The
    only entry written in a tick is the one of the label of the emitted
    alert's detection (the top-priority one, possibly a cluster label), set
    to the time read at emission; nothing is written for the other
    detections.  On a tick that emits no alert nothing is written.  Besides,
    every tick evicts the entries older than 30 s, as part of the tracker
    update: the table a tick starts from is the previous one without
    them. *)
Theorem cooldown_written_only_on_emission (sqrt : Q → Q) (os : string)
    (clk : Clock) (s : Service) (rawDetections : list Detection) :
  let r := processDetections sqrt os clk s rawDetections in
  let kept := filter (λ kt, ¬ (30000 < t_clean clk - kt.2)) (lastAlerts s) in
  match r.2 with
  | [] => lastAlerts r.1 = kept
  | alert :: _ =>
      lastAlerts r.1 = <[Detection.label (detection alert) := t_set clk]> kept
  end
  ∧ ∀ tAlert tSet s' detections,
      let g := generateSmartAlerts os tAlert tSet s' detections in
      match g.2 with
      | [] => lastAlerts g.1 = lastAlerts s'
      | alert :: _ =>
          lastAlerts g.1
          = <[Detection.label (detection alert) := tSet]> (lastAlerts s')
      end.
Proof.
  split; [| intros; apply generateSmartAlerts_lastAlerts].
  unfold processDetections.
  pose proof (applyDetectionPipeline_lastAlerts sqrt clk s rawDetections) as H.
  destruct (applyDetectionPipeline sqrt clk s rawDetections) as [s1 filtered].
  simpl in H. rewrite <- H. apply generateSmartAlerts_lastAlerts.
Qed.

(** ** The tracker and single-frame objects *)

Lemma pushBounded_length (history : list Detection) (d : Detection) :
  length (pushBounded history d)
  = if (TRACKING_HISTORY_SIZE <? S (length history))%nat
    then length history else S (length history).
Proof.
  unfold pushBounded. rewrite length_app, Nat.add_1_r.
  destruct (TRACKING_HISTORY_SIZE <? S (length history))%nat.
  - destruct history; simpl; [done |]. by rewrite length_app, Nat.add_1_r.
  - by rewrite length_app, Nat.add_1_r.
Qed.

Lemma pushBounded_length_ge (history : list Detection) (d : Detection) :
  (length history ≤ length (pushBounded history d))%nat.
Proof.
  rewrite pushBounded_length.
  destruct (TRACKING_HISTORY_SIZE <? S (length history))%nat; lia.
Qed.

Section TrackerFacts.
Variable sqrt : Q → Q.

Lemma movementOf_Some (history : list Detection) (r : bool * number) :
  movementOf sqrt history = Some r → (2 ≤ length history)%nat.
Proof.
  unfold movementOf.
  destruct (Nat.leb_spec 2 (length history)); [done | discriminate].
Qed.

Lemma length_replace_last (history : list Detection) (d : Detection) :
  (1 ≤ length history)%nat →
  length (removelast history ++ [d]) = length history.
Proof.
  intros Hlen. rewrite length_app, Nat.add_1_r.
  destruct history as [| a history] using rev_ind; [simpl in Hlen; lia |].
  by rewrite removelast_last, length_app, Nat.add_1_r.
Qed.

(** The history [trackOne] stores under the key of its detection has the
    length of the pushed one; the other keys are not touched. *)
Lemma trackOne_historyLength (tracker : gmap string (list Detection))
    (d : Detection) (key : string) :
  historyLength (trackOne sqrt tracker d).1 key
  = if decide (key = trackingKey d)
    then length (pushBounded (default [] (tracker !! key)) d)
    else historyLength tracker key.
Proof.
  unfold trackOne, historyLength.
  destruct (movementOf sqrt _) as [[m v] |] eqn:Hmov; simpl.
  - apply movementOf_Some in Hmov.
    destruct (decide (key = trackingKey d)) as [-> |].
    + rewrite lookup_insert_eq. simpl. apply length_replace_last. lia.
    + by rewrite lookup_insert_ne.
  - destruct (decide (key = trackingKey d)) as [-> |].
    + by rewrite lookup_insert_eq.
    + by rewrite lookup_insert_ne.
Qed.

Lemma trackOne_historyLength_mono (tracker : gmap string (list Detection))
    (d : Detection) (key : string) :
  (historyLength tracker key
   ≤ historyLength (trackOne sqrt tracker d).1 key)%nat.
Proof.
  rewrite trackOne_historyLength. case_decide; [| done].
  apply pushBounded_length_ge.
Qed.

Lemma trackAll_historyLength_mono (detections : list Detection) :
  ∀ (tracker : gmap string (list Detection)) (key : string),
    (historyLength tracker key
     ≤ historyLength (trackAll sqrt tracker detections).1 key)%nat.
Proof.
  induction detections as [| d rest IH]; intros tracker key; [done |].
  simpl. pose proof (trackOne_historyLength_mono tracker d key) as H1.
  destruct (trackOne sqrt tracker d) as [tracker1 d'].
  pose proof (IH tracker1 key) as H2.
  destruct (trackAll sqrt tracker1 rest) as [tracker2 rest'].
  simpl in *. lia.
Qed.

(** With a single entry under its key once it is appended, a detection
    comes back as it went in. *)
Lemma trackOne_single_entry (tracker : gmap string (list Detection))
    (d : Detection) :
  (historyLength (trackOne sqrt tracker d).1 (trackingKey d) ≤ 1)%nat →
  (trackOne sqrt tracker d).2 = d.
Proof.
  unfold trackOne, historyLength.
  destruct (movementOf sqrt _) as [[m v] |] eqn:Hmov; simpl; [| done].
  apply movementOf_Some in Hmov.
  rewrite lookup_insert_eq. simpl. rewrite length_replace_last; lia.
Qed.

Lemma trackAll_single_entry (detections : list Detection) :
  ∀ (tracker : gmap string (list Detection)) (i : nat) (d : Detection),
    detections !! i = Some d →
    historyLength (trackAll sqrt tracker detections).1 (trackingKey d)
    = 1%nat →
    (trackAll sqrt tracker detections).2 !! i = Some d.
Proof.
  induction detections as [| d0 rest IH]; intros tracker i d Hi Hlen;
    [done |].
  simpl in *.
  pose proof (trackOne_single_entry tracker d0) as Hone.
  destruct (trackOne sqrt tracker d0) as [tracker1 d0'].
  pose proof (trackAll_historyLength_mono rest tracker1) as Hmono.
  specialize (IH tracker1).
  destruct (trackAll sqrt tracker1 rest) as [tracker2 rest'].
  simpl in *. destruct i as [| j]; simpl in *.
  - injection Hi as ->. f_equal. apply Hone.
    specialize (Hmono (trackingKey d)). lia.
  - by apply IH.
Qed.
End TrackerFacts.

(** Against C5 as stated: two detections that are moving after the tracker
    update although the history of their key then holds one entry: the first arrived moving
    from the Detector and was not touched; the second was marked by the
    tracker from an older observation that the eviction at the end of the
    update then removed. *)
Lemma single_entry_history_yet_moving :
  (let r := updateObjectTracking sqrt_lower t0 freshService [rawMoving] in
   Detection.isMoving rawMoving = Some true
   ∧ length <$> objectTracker r.1 !! trackingKey rawMoving = Some 1%nat
   ∧ Detection.isMoving <$> r.2 = [Some true])
  ∧ (let r := updateObjectTracking sqrt_lower t0 pausedService [newDoor] in
     Detection.isMoving newDoor = None
     ∧ length <$> objectTracker r.1 !! trackingKey newDoor = Some 1%nat
     ∧ Detection.isMoving <$> r.2 = [Some true]).
Proof. vm_compute. repeat split. Qed.

(** C5, as the code has it. A detection whose key holds exactly one entry
    once the detections of the frame are appended (no earlier observation
    of it is stored) comes out of the tracker as it went in: the tracker
    does not mark it moving, and does not clear the flag either, so
    [isMoving] is whatever the Detector set, [true] included. *)
Theorem single_frame_detection_untouched (sqrt : Q → Q) (now : Z)
    (s : Service) (detections : list Detection) (i : nat) (d : Detection) :
  detections !! i = Some d →
  historyLength (trackAll sqrt (objectTracker s) detections).1 (trackingKey d)
  = 1%nat →
  (updateObjectTracking sqrt now s detections).2 !! i = Some d
  ∧ Detection.isMoving <$> (updateObjectTracking sqrt now s detections).2 !! i
    = Some (Detection.isMoving d).
Proof.
  intros Hi Hlen.
  pose proof (trackAll_single_entry sqrt detections (objectTracker s) i d
                Hi Hlen) as Hout.
  unfold updateObjectTracking.
  destruct (trackAll sqrt (objectTracker s) detections) as [tracker annotated].
  simpl in *. by rewrite Hout.
Qed.

(** C5 at work: the detection that arrived moving is the only observation
    of its key and comes back as it was. *)
Lemma single_frame_detection_untouched_witness :
  [rawMoving] !! 0%nat = Some rawMoving
  ∧ historyLength (trackAll sqrt_lower (objectTracker freshService)
                            [rawMoving]).1
                  (trackingKey rawMoving) = 1%nat
  ∧ (updateObjectTracking sqrt_lower t0 freshService [rawMoving]).2 !! 0%nat
    = Some rawMoving.
Proof.
  assert (Hi : [rawMoving] !! 0%nat = Some rawMoving) by reflexivity.
  assert (Hlen : historyLength
                   (trackAll sqrt_lower (objectTracker freshService)
                             [rawMoving]).1
                   (trackingKey rawMoving) = 1%nat) by (vm_compute; reflexivity).
  split; [exact Hi |]. split; [exact Hlen |].
  exact (proj1 (single_frame_detection_untouched
                  sqrt_lower t0 freshService [rawMoving] 0 rawMoving Hi Hlen)).
Defined.

(** ** The clusterer and the order of its input *)

Lemma absorb_nothing (d : Detection) (c : Cluster) (processed : gset string)
    (others : list Detection) :
  (∀ o, o ∈ others → Detection.id o ∈ processed ∨ near d o = false) →
  foldl (absorb d) (c, processed) others = (c, processed).
Proof.
  induction others as [| o others IH]; intros Hskip; [done |].
  change (foldl (absorb d) (absorb d (c, processed) o) others = (c, processed)).
  assert (absorb d (c, processed) o = (c, processed)) as ->.
  { unfold absorb. destruct (Hskip o) as [Hin | Hfar]; [by left | |].
    - by rewrite bool_decide_eq_true_2.
    - case_bool_decide; [done |]. by rewrite Hfar. }
  apply IH. intros o' Ho'. apply Hskip. by right.
Qed.

Lemma growClusters_separate (all : list Detection) (rest : list Detection) :
  ∀ (clusters : list Cluster) (processed : gset string),
    NoDup (Detection.id <$> rest) →
    (∀ d, d ∈ rest → Detection.id d ∉ processed) →
    (∀ d o, d ∈ rest → o ∈ all → Detection.id o ≠ Detection.id d →
            near d o = false) →
    (foldl (growClusters all) (clusters, processed) rest).1
    = clusters ++ ((λ d, (d, [])) <$> rest).
Proof.
  induction rest as [| d rest IH]; intros clusters processed Hnodup Hfresh Hfar.
  - simpl. by rewrite app_nil_r.
  - rewrite fmap_cons in Hnodup. apply NoDup_cons in Hnodup as [Hd Hnodup].
    change ((foldl (growClusters all)
               (growClusters all (clusters, processed) d) rest).1
            = clusters ++ (d, []) :: ((λ d, (d, [])) <$> rest)).
    unfold growClusters at 2.
    rewrite bool_decide_eq_false_2 by (apply Hfresh; left).
    rewrite absorb_nothing.
    + rewrite IH; [by rewrite <- app_assoc | done | |].
      * intros d' Hd'. rewrite elem_of_union, elem_of_singleton.
        intros [Heq | Hin].
        -- apply Hd. rewrite <- Heq. by apply list_elem_of_fmap_2.
        -- by apply (Hfresh d'); [right |].
      * intros d' o Hd'. apply Hfar. by right.
    + intros o Ho.
      destruct (decide (Detection.id o = Detection.id d)) as [Heq | Hne].
      * left. rewrite Heq. set_solver.
      * right. apply Hfar; [left | done | done].
Qed.

Lemma buildClusters_separate (l : list Detection) :
  NoDup (Detection.id <$> l) → separate l →
  buildClusters l = (λ d, (d, [])) <$> l.
Proof.
  intros Hnodup Hsep. unfold buildClusters.
  rewrite growClusters_separate; [done | done | set_solver |].
  intros d o Hd Ho Hne. by apply Hsep.
Qed.

Lemma imap_representative_singletons (l : list Detection) :
  ∀ now : nat → Z,
    imap (λ i c, representative (now i) c) ((λ d, (d, [])) <$> l) = l.
Proof.
  induction l as [| d l IH]; intros now; [done |].
  rewrite fmap_cons, imap_cons. f_equal. apply (IH (now ∘ S)).
Qed.

Lemma clusterNearbyObjects_separate (now : nat → Z) (l : list Detection) :
  NoDup (Detection.id <$> l) → separate l → clusterNearbyObjects now l = l.
Proof.
  intros Hnodup Hsep. unfold clusterNearbyObjects.
  destruct (length l <=? 1)%nat; [done |].
  rewrite buildClusters_separate by done.
  apply imap_representative_singletons.
Qed.

Lemma separate_perm (l l' : list Detection) :
  l ≡ₚ l' → separate l → separate l'.
Proof.
  intros Hperm Hsep a b Ha Hb. apply Hsep; by rewrite Hperm.
Qed.

Lemma separateb_sound (l : list Detection) : separateb l = true → separate l.
Proof.
  unfold separateb. rewrite forallb_forall. intros Hall a b Ha Hb Hne.
  apply list_elem_of_In, Hall in Ha. rewrite forallb_forall in Ha.
  apply list_elem_of_In, Ha in Hb. apply orb_true_iff in Hb as [Heq | Hfar].
  - by apply bool_decide_eq_true in Heq.
  - by apply negb_true_iff in Hfar.
Qed.

(** Against C6 as stated: the same three detections in two orders give
    different clusters: two
    representatives when the chair comes first, a single one when the table
    does.  Already with two detections the representative takes its place
    in the frame and its label from the one that comes first. *)
Lemma cluster_depends_on_order :
  [tableMid; chairLeft; doorRight] ≡ₚ [chairLeft; tableMid; doorRight]
  ∧ Detection.label
      <$> clusterNearbyObjects (λ _, t0) [chairLeft; tableMid; doorRight]
    = ["chair and table"; "door"]%string
  ∧ Detection.label
      <$> clusterNearbyObjects (λ _, t0) [tableMid; chairLeft; doorRight]
    = ["3 objects"]%string
  ∧ (λ d, (Detection.label d, Detection.x d))
      <$> clusterNearbyObjects (λ _, t0) [chairLeft; tableMid]
    = [("chair and table"%string, 0.35%Q)]
  ∧ (λ d, (Detection.label d, Detection.x d))
      <$> clusterNearbyObjects (λ _, t0) [tableMid; chairLeft]
    = [("table and chair"%string, 0.5%Q)].
Proof. split; [apply perm_swap |]. vm_compute. repeat split. Qed.

(** C6, as the code has it. On detections with distinct ids of which no two
    satisfy the merge test (singleton and empty inputs among them) the
    clusterer returns its input unchanged, so the inputs that are
    permutations of one another give the same detections.  Elsewhere the
    grouping is first-come greedy and follows the order of the input. *)
Theorem cluster_order_independent_on_separate (now now' : nat → Z)
    (l l' : list Detection) :
  NoDup (Detection.id <$> l) →
  separate l →
  l ≡ₚ l' →
  clusterNearbyObjects now l = l
  ∧ clusterNearbyObjects now' l' = l'
  ∧ clusterNearbyObjects now l ≡ₚ clusterNearbyObjects now' l'.
Proof.
  intros Hnodup Hsep Hperm.
  assert (Hl : clusterNearbyObjects now l = l)
    by by apply clusterNearbyObjects_separate.
  assert (Hl' : clusterNearbyObjects now' l' = l').
  { apply clusterNearbyObjects_separate.
    - by rewrite <- Hperm.
    - by apply (separate_perm l). }
  by rewrite Hl, Hl'.
Qed.

(** C6 at work: a chair at three steps and a door at five are never merged,
    in either order. *)
Lemma cluster_order_independent_on_separate_witness :
  NoDup (Detection.id <$> [chairLeft; doorFar])
  ∧ separate [chairLeft; doorFar]
  ∧ [chairLeft; doorFar] ≡ₚ [doorFar; chairLeft]
  ∧ clusterNearbyObjects (λ _, t0) [chairLeft; doorFar]
    ≡ₚ clusterNearbyObjects (λ _, t0 + 1200) [doorFar; chairLeft].
Proof.
  assert (Hnodup : NoDup (Detection.id <$> [chairLeft; doorFar])).
  { apply (bool_decide_unpack _). vm_compute. exact I. }
  assert (Hsep : separate [chairLeft; doorFar]).
  { apply separateb_sound. vm_compute. reflexivity. }
  assert (Hperm : [chairLeft; doorFar] ≡ₚ [doorFar; chairLeft])
    by apply perm_swap.
  split; [exact Hnodup |]. split; [exact Hsep |]. split; [exact Hperm |].
  exact (proj2 (proj2 (cluster_order_independent_on_separate
                         (λ _, t0) (λ _, t0 + 1200) _ _ Hnodup Hsep Hperm))).
Defined.

(** ** Further properties of the pipeline *)

(** X1. The temporal filter keeps a detection exactly when it is within one
    step, or the cooldown of its label has elapsed (a label never alerted
    counts as alerted at time 0), or its key has moved since the earliest
    stored observation. *)
Theorem keepTemporal_iff (s : Service) (now : Z) (d : Detection) :
  keepTemporal s now d = true
  ↔ Detection.steps d ≤ 1
    ∨ ALERT_COOLDOWN_MS
      ≤ now - default 0 (lastAlerts s !! Detection.label d)
    ∨ movedSinceEarliest s d.
Proof.
  unfold keepTemporal, movedSinceEarliest, at_index.
  destruct (Z.leb_spec (Detection.steps d) 1) as [Hclose | Hfar];
    [by split; [left |] |].
  destruct (Z.ltb_spec (now - default 0 (lastAlerts s !! Detection.label d))
                       ALERT_COOLDOWN_MS) as [Hcool | Hover];
    [| by split; [right; left |]].
  destruct (objectTracker s !! trackingKey d) as [history |] eqn:Hkey.
  - destruct (Nat.leb_spec 2 (length history)) as [Hlen | Hlen].
    + destruct (lookup_lt_is_Some_2 history 0) as [first Hfirst]; [lia |].
      destruct (lookup_lt_is_Some_2 history (length history - 1))
        as [last Hlast]; [lia |].
      rewrite Hfirst, Hlast, Qgtb_lt. split.
      * intros Hmoved. right; right. by exists history, first, last.
      * intros [? | [? | (h & f & l & [= <-] & _ & Hf & Hl & Hmoved)]];
          [lia | lia |].
        rewrite Hfirst in Hf. rewrite Hlast in Hl. by simplify_eq.
    + split; [done |].
      intros [? | [? | (h & f & l & [= <-] & ? & _)]]; lia.
  - split; [done |].
    intros [? | [? | (h & f & l & ? & _)]]; [lia | lia | done].
Qed.

(** The cooldown scenario: after an alert for "chair" at [t0], a chair at
    three steps whose key holds no second observation is dropped one
    millisecond before the cooldown ends and kept one millisecond after. *)
Theorem cooldown_earn_back :
  let s := set_lastAlerts freshService {["chair"%string := t0]} in
  applyTemporalFiltering s (t0 + ALERT_COOLDOWN_MS - 1) [chairAtThreeSteps] = []
  ∧ applyTemporalFiltering s (t0 + ALERT_COOLDOWN_MS + 1) [chairAtThreeSteps]
    = [chairAtThreeSteps].
Proof. vm_compute. by split. Qed.

Section SortFacts.
Context {A : Type} (key : A → Q).

Lemma insertSorted_elem (a x : A) (sorted : list A) :
  x ∈ insertSorted (λ a b, key b - key a)%Q a sorted ↔ x = a ∨ x ∈ sorted.
Proof.
  induction sorted as [| b rest IH]; simpl.
  - rewrite list_elem_of_singleton, elem_of_nil. tauto.
  - destruct (Qleb _ 0); [by rewrite elem_of_cons |].
    rewrite !elem_of_cons, IH. tauto.
Qed.

Lemma sortBy_elem (x : A) (l : list A) :
  x ∈ sortBy (λ a b, key b - key a)%Q l ↔ x ∈ l.
Proof.
  induction l as [| a l IH]; simpl; [done |].
  rewrite insertSorted_elem, elem_of_cons, IH. tauto.
Qed.

(** The head of the sorted array has the greatest key. *)
Lemma sortBy_head (l : list A) :
  ∀ (top : A) (rest : list A),
    sortBy (λ a b, key b - key a)%Q l = top :: rest →
    ∀ x, x ∈ l → (key x <= key top)%Q.
Proof.
  induction l as [| a l IH]; intros top rest Hsort x Hx;
    [by apply elem_of_nil in Hx |].
  simpl in Hsort.
  destruct (sortBy (λ a b, key b - key a)%Q l) as [| b sorted] eqn:Hl.
  - assert (l = []) as ->.
    { destruct l as [| c l]; [done |].
      assert (Hc : c ∈ sortBy (λ a b, key b - key a)%Q (c :: l))
        by (apply sortBy_elem; left).
      rewrite Hl in Hc. by apply elem_of_nil in Hc. }
    simpl in Hsort. injection Hsort as <- <-.
    apply list_elem_of_singleton in Hx as ->. apply Qle_refl.
  - specialize (IH b sorted eq_refl). simpl in Hsort.
    destruct (Qleb (key b - key a) 0) eqn:Hcmp.
    + injection Hsort as <- <-. apply Qleb_le in Hcmp.
      apply elem_of_cons in Hx as [-> | Hx]; [apply Qle_refl |].
      specialize (IH x Hx). lra.
    + injection Hsort as <- <-.
      assert (Hlt : ¬ (key b - key a <= 0)%Q).
      { rewrite <- Qleb_le. by rewrite Hcmp. }
      apply elem_of_cons in Hx as [-> | Hx]; [lra | by apply IH].
Qed.
End SortFacts.

(** X3. The alert of a tick is for a detection of the filtered set whose
    priority no other detection of the set exceeds, and it is emitted
    whenever the set is not empty. *)
Theorem alert_is_for_top_priority (os : string) (tAlert tSet : Z)
    (s : Service) (detections : list Detection) :
  match (generateSmartAlerts os tAlert tSet s detections).2 with
  | [] => detections = []
  | alert :: _ =>
      detection alert ∈ detections
      ∧ priority alert = calculatePriority (detection alert)
      ∧ ∀ d, d ∈ detections →
             (calculatePriority d <= calculatePriority (detection alert))%Q
  end.
Proof.
  unfold generateSmartAlerts. case_bool_decide as Hlen.
  { by apply nil_length_inv. }
  unfold prioritize.
  destruct (sortBy _ _) as [| [top p] rest] eqn:Hsort.
  - destruct detections as [| d l]; [done |].
    assert (Hd : (d, calculatePriority d)
                 ∈ sortBy (λ a b, b.2 - a.2)%Q
                     ((λ d, (d, calculatePriority d)) <$> d :: l))
      by (apply (sortBy_elem snd); left).
    rewrite Hsort in Hd. by apply elem_of_nil in Hd.
  - simpl.
    assert (Htop : (top, p) ∈ (λ d, (d, calculatePriority d)) <$> detections).
    { apply (sortBy_elem snd). rewrite Hsort. left. }
    apply list_elem_of_fmap in Htop as (d0 & [= -> ->] & Hd0).
    split; [done |]. split; [done |].
    intros d Hd.
    apply (sortBy_head snd _ _ _ Hsort (d, calculatePriority d)).
    apply list_elem_of_fmap. by exists d.
Qed.

(** The priority scenario: with a person one step away and a chair five
    steps away in the same tick, in either order, the alert is "Stop!
    person ahead in 1 step" and it is urgent. *)
Theorem person_before_chair :
  (λ a, (message a, alertType a))
    <$> (processDetections sqrt_lower "ios" (clockAt t0) freshService
           [personAhead; chairAhead]).2
  = [("Stop! person ahead in 1 step"%string, urgent)]
  ∧ (λ a, (message a, alertType a))
      <$> (processDetections sqrt_lower "ios" (clockAt t0) freshService
             [chairAhead; personAhead]).2
    = [("Stop! person ahead in 1 step"%string, urgent)].
Proof. vm_compute. by split. Qed.

(** A tick on which the Detector returns nothing emits no alert,
    whatever the state. *)
Theorem no_detection_no_alert (sqrt : Q → Q) (os : string) (clk : Clock)
    (s : Service) :
  (processDetections sqrt os clk s []).2 = [].
Proof. reflexivity. Qed.

Lemma cleanHistory_length (now : Z) (history kept : list Detection) :
  cleanHistory now history = Some kept → (length kept ≤ length history)%nat.
Proof.
  unfold cleanHistory. case_bool_decide; [done |].
  intros [= <-]. apply length_filter.
Qed.

Lemma trackAll_bounded (sqrt : Q → Q) (detections : list Detection) :
  ∀ tracker : gmap string (list Detection),
    bounded tracker → bounded (trackAll sqrt tracker detections).1.
Proof.
  induction detections as [| d rest IH]; intros tracker Hb; [done |].
  simpl.
  assert (Hone : bounded (trackOne sqrt tracker d).1).
  { intros key history Hkey.
    pose proof (trackOne_historyLength sqrt tracker d key) as Hlen.
    unfold historyLength in Hlen. rewrite Hkey in Hlen. simpl in Hlen.
    rewrite Hlen. case_decide as Heq.
    - rewrite pushBounded_length.
      destruct (TRACKING_HISTORY_SIZE <? _)%nat eqn:Hfull.
      + destruct (tracker !! key) as [h |] eqn:Hh; simpl; [by eapply Hb |].
        unfold TRACKING_HISTORY_SIZE. lia.
      + apply Nat.ltb_ge in Hfull. lia.
    - unfold historyLength.
      destruct (tracker !! key) as [h |] eqn:Hh; simpl; [by eapply Hb |].
      unfold TRACKING_HISTORY_SIZE. lia. }
  destruct (trackOne sqrt tracker d) as [tracker1 d'].
  specialize (IH tracker1 Hone).
  by destruct (trackAll sqrt tracker1 rest) as [tracker2 rest'].
Qed.

(** X6. The tracker keeps every history within its capacity of five: a tracker
    whose histories are within it (the empty one at construction is) still
    has them within it after an update. *)
Theorem updateObjectTracking_bounded (sqrt : Q → Q) (now : Z) (s : Service)
    (detections : list Detection) :
  bounded (objectTracker s) →
  bounded (objectTracker (updateObjectTracking sqrt now s detections).1).
Proof.
  intros Hb. pose proof (trackAll_bounded sqrt detections _ Hb) as Hall.
  unfold updateObjectTracking.
  destruct (trackAll sqrt (objectTracker s) detections) as [tracker annotated].
  simpl in *. intros key kept Hkey.
  rewrite lookup_omap in Hkey.
  destruct (tracker !! key) as [history |] eqn:Hh; simpl in Hkey; [| done].
  apply cleanHistory_length in Hkey. specialize (Hall key history Hh). lia.
Qed.

(** X6 at work, on the tracker that holds one old observation of a door. *)
Lemma updateObjectTracking_bounded_witness :
  bounded (objectTracker pausedService)
  ∧ bounded (objectTracker
               (updateObjectTracking sqrt_lower t0 pausedService [newDoor]).1).
Proof.
  assert (Hb : bounded (objectTracker pausedService)).
  { intros key history. unfold pausedService. simpl.
    intros [_ <-]%lookup_singleton_Some. simpl.
    unfold TRACKING_HISTORY_SIZE. lia. }
  split; [exact Hb |].
  exact (updateObjectTracking_bounded sqrt_lower t0 pausedService [newDoor] Hb).
Defined.

(** ** The grouping loops *)

Lemma unprocessed_cons_in (processed : gset string) (o : Detection)
    (l : list Detection) :
  Detection.id o ∈ processed →
  unprocessed processed (o :: l) = unprocessed processed l.
Proof.
  intros Hin. unfold unprocessed. rewrite filter_cons.
  by rewrite decide_False by (by intros Hn; apply Hn).
Qed.

Lemma unprocessed_cons_out (processed : gset string) (o : Detection)
    (l : list Detection) :
  Detection.id o ∉ processed →
  unprocessed processed (o :: l) = o :: unprocessed processed l.
Proof.
  intros Hout. unfold unprocessed. by rewrite filter_cons, decide_True.
Qed.

Lemma unprocessed_fresh (processed : gset string) (id : string)
    (l : list Detection) :
  id ∉ Detection.id <$> l →
  unprocessed ({[id]} ∪ processed) l = unprocessed processed l.
Proof.
  induction l as [| a l IH]; intros Hfresh; [done |].
  rewrite fmap_cons, not_elem_of_cons in Hfresh. destruct Hfresh as [Hne Hfresh].
  destruct (decide (Detection.id a ∈ processed)) as [Hp | Hp].
  - rewrite !unprocessed_cons_in; [by apply IH | done | set_solver].
  - rewrite !unprocessed_cons_out; [by rewrite IH | done | set_solver].
Qed.

Lemma idsOf_cons (o : Detection) (l : list Detection) :
  idsOf (o :: l) = {[Detection.id o]} ∪ idsOf l.
Proof. done. Qed.

Lemma elem_of_idsOf (id : string) (l : list Detection) :
  id ∈ idsOf l ↔ ∃ o, o ∈ l ∧ Detection.id o = id.
Proof.
  unfold idsOf. rewrite elem_of_list_to_set, list_elem_of_fmap. naive_solver.
Qed.

Lemma unprocessed_take (processed : gset string) (d : Detection)
    (l : list Detection) :
  NoDup (Detection.id <$> l) → d ∈ l → Detection.id d ∉ processed →
  unprocessed processed l
  ≡ₚ d :: unprocessed ({[Detection.id d]} ∪ processed) l.
Proof.
  induction l as [| a l IH]; intros Hnodup Hd Hfresh;
    [by apply elem_of_nil in Hd |].
  rewrite fmap_cons in Hnodup. apply NoDup_cons in Hnodup as [Ha Hnodup].
  apply elem_of_cons in Hd as [-> | Hd].
  - rewrite unprocessed_cons_out by done.
    rewrite unprocessed_cons_in by set_solver.
    by rewrite unprocessed_fresh.
  - assert (Hne : Detection.id a ≠ Detection.id d).
    { intros Heq. apply Ha. rewrite Heq. by apply list_elem_of_fmap_2. }
    destruct (decide (Detection.id a ∈ processed)) as [Hap | Hap].
    + rewrite !unprocessed_cons_in by set_solver. by apply IH.
    + rewrite !unprocessed_cons_out by set_solver.
      rewrite perm_swap. constructor. by apply IH.
Qed.

Lemma unprocessed_all (processed : gset string) (l : list Detection) :
  idsOf l ⊆ processed → unprocessed processed l = [].
Proof.
  induction l as [| a l IH]; intros Hsub; [done |].
  rewrite idsOf_cons in Hsub.
  rewrite unprocessed_cons_in by set_solver. apply IH. set_solver.
Qed.

Lemma unprocessed_empty (l : list Detection) : unprocessed ∅ l = l.
Proof.
  induction l as [| a l IH]; [done |].
  by rewrite unprocessed_cons_out, IH by apply not_elem_of_empty.
Qed.

Section GroupingFacts.
Variable nr : Detection → Detection → bool.

Lemma absorbed_subset (d : Detection) (others : list Detection) :
  ∀ processed o, o ∈ absorbed nr d processed others → o ∈ others.
Proof.
  induction others as [| a others IH]; intros processed o; simpl; [done |].
  case_bool_decide; [by right; eauto |].
  destruct (nr d a); [| by right; eauto].
  intros [-> | Ho]%elem_of_cons; [by left | right; eauto].
Qed.

Lemma absorbed_near (d : Detection) (others : list Detection) :
  ∀ processed, Forall (λ o, nr d o = true) (absorbed nr d processed others).
Proof.
  induction others as [| a others IH]; intros processed; simpl; [done |].
  case_bool_decide; [done |].
  destruct (nr d a) eqn:Hnear; [by constructor | done].
Qed.

(** The inner loop pushes [absorbed] and marks its ids. *)
Lemma absorbBy_fold (d seed : Detection) (others : list Detection) :
  ∀ (acc : list Detection) (processed : gset string),
    foldl (absorbBy nr d) ((seed, acc), processed) others
    = ((seed, acc ++ absorbed nr d processed others),
       idsOf (absorbed nr d processed others) ∪ processed).
Proof.
  induction others as [| o others IH]; intros acc processed.
  - simpl. rewrite app_nil_r. f_equal. unfold idsOf. simpl.
    by rewrite (left_id_L ∅ (∪)).
  - change (foldl (absorbBy nr d)
              (absorbBy nr d ((seed, acc), processed) o) others
            = ((seed, acc ++ absorbed nr d processed (o :: others)),
               idsOf (absorbed nr d processed (o :: others)) ∪ processed)).
    unfold absorbBy at 2. simpl.
    case_bool_decide; [apply IH |].
    destruct (nr d o); [| apply IH].
    rewrite IH, <- app_assoc. simpl. f_equal. unfold idsOf. simpl.
    set_solver.
Qed.

(** What the inner loop absorbs and what it leaves are together what was
    unprocessed before it. *)
Lemma absorbed_partition (d : Detection) (others : list Detection) :
  ∀ processed,
    NoDup (Detection.id <$> others) →
    absorbed nr d processed others
    ++ unprocessed (idsOf (absorbed nr d processed others) ∪ processed) others
    ≡ₚ unprocessed processed others.
Proof.
  induction others as [| o others IH]; intros processed Hnodup; [done |].
  rewrite fmap_cons in Hnodup. apply NoDup_cons in Hnodup as [Ho Hnodup].
  simpl. case_bool_decide as Hin.
  - rewrite !unprocessed_cons_in by set_solver. by apply IH.
  - destruct (nr d o).
    + rewrite unprocessed_cons_in by (rewrite idsOf_cons; set_solver).
      rewrite unprocessed_cons_out by done. simpl. constructor.
      rewrite <- (unprocessed_fresh processed (Detection.id o)) by done.
      rewrite <- (IH ({[Detection.id o]} ∪ processed)) by done.
      apply Permutation_app_head.
      rewrite idsOf_cons.
      by replace ({[Detection.id o]}
                  ∪ idsOf (absorbed nr d ({[Detection.id o]} ∪ processed) others)
                  ∪ processed)
        with (idsOf (absorbed nr d ({[Detection.id o]} ∪ processed) others)
              ∪ ({[Detection.id o]} ∪ processed)) by set_solver.
    + rewrite !unprocessed_cons_out.
      * rewrite <- Permutation_middle. constructor. by apply IH.
      * done.
      * intros [Habs | Hp]%elem_of_union; [| done].
        apply elem_of_idsOf in Habs as (a & Ha & Heq).
        apply Ho. rewrite <- Heq. apply list_elem_of_fmap_2.
        by eapply absorbed_subset.
Qed.

(** The outer loop keeps clustered and unprocessed detections a partition
    of the input, and ends with every id processed. *)
Lemma growClustersBy_fold (all : list Detection) (rest : list Detection) :
  ∀ (clusters : list Cluster) (processed : gset string),
    NoDup (Detection.id <$> all) →
    (∀ d, d ∈ rest → d ∈ all) →
    concat (members <$> clusters) ++ unprocessed processed all ≡ₚ all →
    let r := foldl (growClustersBy nr all) (clusters, processed) rest in
    concat (members <$> r.1) ++ unprocessed r.2 all ≡ₚ all
    ∧ idsOf rest ∪ processed ⊆ r.2.
Proof.
  induction rest as [| d rest IH]; intros clusters processed Hnodup Hsub Hinv.
  - simpl. split; [done |]. unfold idsOf. set_solver.
  - change (foldl (growClustersBy nr all) (clusters, processed) (d :: rest))
      with (foldl (growClustersBy nr all)
              (growClustersBy nr all (clusters, processed) d) rest).
    unfold growClustersBy at 2. case_bool_decide as Hin.
    + destruct (IH clusters processed Hnodup) as [Hperm Hids];
        [by intros; apply Hsub; right | done |].
      split; [done |]. unfold idsOf in *. set_solver.
    + rewrite absorbBy_fold. simpl.
      set (A := absorbed nr d ({[Detection.id d]} ∪ processed) all).
      destruct (IH (clusters ++ [(d, A)])
                   (idsOf A ∪ ({[Detection.id d]} ∪ processed)) Hnodup)
        as [Hperm Hids]; [by intros; apply Hsub; right | |].
      * rewrite fmap_app, concat_app. simpl. rewrite app_nil_r.
        rewrite <- Hinv at 2. rewrite <- !app_assoc.
        apply Permutation_app_head.
        rewrite (unprocessed_take processed d all) by (auto; apply Hsub; left).
        simpl. constructor. by apply absorbed_partition.
      * split; [done |]. unfold idsOf in *. set_solver.
Qed.

Lemma buildClustersBy_partition (l : list Detection) :
  NoDup (Detection.id <$> l) →
  concat (members <$> buildClustersBy nr l) ≡ₚ l.
Proof.
  intros Hnodup. unfold buildClustersBy.
  destruct (growClustersBy_fold l l [] ∅ Hnodup) as [Hperm Hids]; [done | |].
  - simpl. by rewrite unprocessed_empty.
  - simpl in *. rewrite unprocessed_all in Hperm by set_solver.
    by rewrite app_nil_r in Hperm.
Qed.

(** Without any assumption on the ids: every cluster is made of detections
    of the input, and the ones pushed after the seed pass the merge test
    with it. *)
Lemma growClustersBy_members (all : list Detection) (rest : list Detection) :
  ∀ (clusters : list Cluster) (processed : gset string),
    (∀ d, d ∈ rest → d ∈ all) →
    Forall (λ c, c.1 ∈ all
                 ∧ Forall (λ o, o ∈ all ∧ nr c.1 o = true) c.2) clusters →
    Forall (λ c, c.1 ∈ all
                 ∧ Forall (λ o, o ∈ all ∧ nr c.1 o = true) c.2)
           (foldl (growClustersBy nr all) (clusters, processed) rest).1.
Proof.
  induction rest as [| d rest IH]; intros clusters processed Hsub Hinv;
    [done |].
  change (foldl (growClustersBy nr all) (clusters, processed) (d :: rest))
    with (foldl (growClustersBy nr all)
            (growClustersBy nr all (clusters, processed) d) rest).
  unfold growClustersBy at 2. case_bool_decide as Hin.
  - apply IH; [by intros; apply Hsub; right | done].
  - rewrite absorbBy_fold. simpl.
    apply IH; [by intros; apply Hsub; right |].
    apply Forall_app. split; [done |]. constructor; [| done].
    simpl. split; [apply Hsub; left |].
    apply Forall_forall. intros o Ho. split.
    + by eapply absorbed_subset.
    + by eapply (proj1 (Forall_forall _ _) (absorbed_near d all _)).
Qed.

Lemma buildClustersBy_members (l : list Detection) :
  Forall (λ c, c.1 ∈ l ∧ Forall (λ o, o ∈ l ∧ nr c.1 o = true) c.2)
         (buildClustersBy nr l).
Proof. unfold buildClustersBy. by apply growClustersBy_members. Qed.
End GroupingFacts.

(** ** Clusters as a partition of the input *)

Lemma buildClusters_by (l : list Detection) :
  buildClusters l = buildClustersBy near l.
Proof. reflexivity. Qed.

(** X5. When the ids of the input are pairwise distinct, the clusters of
    either service hold every detection of the input exactly once: their
    members, taken together, are a permutation of the input. *)
Theorem clusters_partition_input (l : list Detection) :
  NoDup (Detection.id <$> l) →
  concat (members <$> buildClusters l) ≡ₚ l
  ∧ concat (members <$> buildClustersBy LegacyService.near l) ≡ₚ l.
Proof.
  intros Hnodup. rewrite buildClusters_by.
  split; by apply buildClustersBy_partition.
Qed.

(** X5 at work, on the three objects of which the middle one is within
    reach of both ends. *)
Lemma clusters_partition_input_witness :
  NoDup (Detection.id <$> [chairLeft; tableMid; doorRight])
  ∧ members <$> buildClusters [chairLeft; tableMid; doorRight]
    = [[chairLeft; tableMid]; [doorRight]]
  ∧ concat (members <$> buildClusters [chairLeft; tableMid; doorRight])
    ≡ₚ [chairLeft; tableMid; doorRight].
Proof.
  assert (Hnodup : NoDup (Detection.id <$> [chairLeft; tableMid; doorRight])).
  { apply (bool_decide_unpack _). vm_compute. exact I. }
  split; [exact Hnodup |]. split; [vm_compute; reflexivity |].
  exact (proj1 (clusters_partition_input _ Hnodup)).
Defined.

Lemma near_same_steps (d o : Detection) :
  near d o = true →
  Detection.steps o = Detection.steps d
  ∧ (Qabs (Detection.x d - Detection.x o) <= 0.2)%Q.
Proof.
  unfold near. intros [Hsteps Hx]%andb_true_iff.
  apply Qleb_le in Hsteps, Hx. split; [| done].
  unfold CLUSTER_DISTANCE_THRESHOLD, Qle in Hsteps. simpl in Hsteps. lia.
Qed.

Lemma closestOf_same_steps (seed : Detection) (others : list Detection) :
  Forall (λ o, Detection.steps o = Detection.steps seed) others →
  closestOf (seed, others) = seed.
Proof.
  unfold closestOf. simpl. induction 1 as [| o others Ho _ IH]; [done |].
  simpl. by rewrite Ho, Z.ltb_irrefl.
Qed.

(** X7. In the clusters of [clusterNearbyObjects] every detection pushed
    after the seed is a detection of the input with the step count of the
    seed and at most 0.2 from it in [x]: the threshold of 0.8 steps merges
    equal step counts only.  The closest member is therefore the seed, and
    the representative has the seed's steps and place in the frame. *)
Theorem clusters_merge_equal_steps (l : list Detection) :
  Forall (λ c : Cluster,
            c.1 ∈ l
            ∧ Forall (λ o, o ∈ l
                           ∧ Detection.steps o = Detection.steps c.1
                           ∧ (Qabs (Detection.x c.1 - Detection.x o) <= 0.2)%Q)
                     c.2
            ∧ closestOf c = c.1
            ∧ ∀ now, Detection.steps (representative now c)
                     = Detection.steps c.1
                     ∧ Detection.x (representative now c) = Detection.x c.1)
         (buildClusters l).
Proof.
  rewrite buildClusters_by.
  eapply Forall_impl; [apply buildClustersBy_members |].
  intros [seed others] [Hseed Hothers]. simpl in *.
  assert (Hsteps : Forall (λ o, Detection.steps o = Detection.steps seed) others).
  { eapply Forall_impl; [exact Hothers |].
    intros o [_ Hnear]. by apply near_same_steps in Hnear as [? _]. }
  pose proof (closestOf_same_steps seed others Hsteps) as Hclosest.
  split; [done |]. split; [| split; [done |]].
  - eapply Forall_impl; [exact Hothers |].
    intros o [Ho Hnear]. by apply near_same_steps in Hnear as [? ?].
  - intros now. unfold representative. simpl.
    destruct others; [done |]. simpl. by rewrite Hclosest.
Qed.

(** ** What the tracker changes *)

Lemma sameButMovement_annotate (d : Detection) (m : bool) (v : number) :
  sameButMovement d (Detection.annotate d m v).
Proof. done. Qed.

Lemma trackOne_sameButMovement (sqrt : Q → Q)
    (tracker : gmap string (list Detection)) (d : Detection) :
  sameButMovement d (trackOne sqrt tracker d).2.
Proof.
  unfold trackOne. by destruct (movementOf sqrt _) as [[m v] |].
Qed.

Lemma trackAll_sameButMovement (sqrt : Q → Q) (detections : list Detection) :
  ∀ tracker,
    Forall2 sameButMovement detections (trackAll sqrt tracker detections).2.
Proof.
  induction detections as [| d rest IH]; intros tracker; [by constructor |].
  simpl. pose proof (trackOne_sameButMovement sqrt tracker d) as Hd.
  destruct (trackOne sqrt tracker d) as [tracker1 d'].
  specialize (IH tracker1).
  destruct (trackAll sqrt tracker1 rest) as [tracker2 rest'].
  by constructor.
Qed.

Lemma sameButMovement_fields (d d' : Detection) :
  sameButMovement d d' →
  Detection.id d' = Detection.id d
  ∧ Detection.label d' = Detection.label d
  ∧ Detection.confidence d' = Detection.confidence d
  ∧ Detection.distance d' = Detection.distance d
  ∧ Detection.steps d' = Detection.steps d
  ∧ Detection.x d' = Detection.x d
  ∧ Detection.y d' = Detection.y d
  ∧ Detection.timestamp d' = Detection.timestamp d.
Proof.
  unfold sameButMovement, Detection.annotate. intros H.
  by injection H as -> -> -> -> -> -> -> _ _ ->.
Qed.

(** X8. The tracker returns as many detections as it is given, in the same
    order, and changes nothing in them but [isMoving] and [velocity]: id,
    label, confidence, distance, steps, position, size and timestamp are
    those of the input. *)
Theorem tracker_changes_only_movement (sqrt : Q → Q) (now : Z) (s : Service)
    (detections : list Detection) :
  Forall2 (λ d d',
             sameButMovement d d'
             ∧ Detection.id d' = Detection.id d
             ∧ Detection.label d' = Detection.label d
             ∧ Detection.confidence d' = Detection.confidence d
             ∧ Detection.steps d' = Detection.steps d
             ∧ Detection.x d' = Detection.x d
             ∧ Detection.y d' = Detection.y d)
          detections (updateObjectTracking sqrt now s detections).2.
Proof.
  unfold updateObjectTracking.
  pose proof (trackAll_sameButMovement sqrt detections (objectTracker s)) as H.
  destruct (trackAll sqrt (objectTracker s) detections) as [tracker annotated].
  simpl in *. eapply Forall2_impl; [exact H |].
  intros d d' Hsame. split; [done |].
  apply sameButMovement_fields in Hsame. naive_solver.
Qed.

(** ** What reaches the alert *)

Lemma Qmaxb_fold_in (a : Q) (l : list Q) :
  foldl Qmaxb a l = a ∨ foldl Qmaxb a l ∈ l.
Proof.
  revert a. induction l as [| b l IH]; intros a; [by left |].
  simpl. destruct (IH (Qmaxb a b)) as [Heq | Hin].
  - rewrite Heq. unfold Qmaxb. destruct (Qleb a b); [right; left | by left].
  - right. by right.
Qed.

Lemma closestOf_in (c : Cluster) : closestOf c ∈ members c.
Proof.
  destruct c as [seed others]. unfold closestOf, members. simpl.
  revert seed. induction others as [| o others IH]; intros seed; [left |].
  simpl. destruct (Detection.steps o <? Detection.steps seed).
  - right. apply IH.
  - specialize (IH seed). apply elem_of_cons in IH as [-> | Hin];
      [left | by right; right].
Qed.

Lemma members_in_input (l : list Detection) (c : Cluster) (m : Detection) :
  c ∈ buildClusters l → m ∈ members c → m ∈ l.
Proof.
  rewrite buildClusters_by. intros Hc Hm.
  pose proof (proj1 (Forall_forall _ _) (buildClustersBy_members near l) c Hc)
    as [Hseed Hothers].
  apply elem_of_cons in Hm as [-> | Hm]; [done |].
  by apply (proj1 (Forall_forall _ _) Hothers m Hm).
Qed.

Lemma representative_merged (now : Z) (seed o : Detection)
    (others : list Detection) :
  let c : Cluster := (seed, o :: others) in
  Detection.steps (representative now c) = Detection.steps (closestOf c)
  ∧ Detection.x (representative now c) = Detection.x (closestOf c)
  ∧ Detection.confidence (representative now c)
    = foldl Qmaxb (Detection.confidence seed)
            (Detection.confidence <$> o :: others).
Proof. done. Qed.

(** A representative has the steps and place of a detection of the input,
    and the confidence of one. *)
Lemma clusterNearbyObjects_origin (now : nat → Z) (l : list Detection)
    (r : Detection) :
  r ∈ clusterNearbyObjects now l →
  (∃ m, m ∈ l ∧ Detection.steps r = Detection.steps m
        ∧ Detection.x r = Detection.x m)
  ∧ (∃ m, m ∈ l ∧ Detection.confidence r = Detection.confidence m).
Proof.
  unfold clusterNearbyObjects.
  destruct (length l <=? 1)%nat; [by intros Hr; split; exists r |].
  intros (i & c & -> & Hc)%elem_of_lookup_imap.
  apply list_elem_of_lookup_2 in Hc.
  pose proof (members_in_input l c) as Hin.
  destruct c as [seed [| o others]];
    [split; exists seed; (split; [apply Hin; [done | left] | done]) |].
  destruct (representative_merged (now i) seed o others) as (-> & -> & ->).
  split.
  - exists (closestOf (seed, o :: others)).
    split; [apply Hin; [done | apply closestOf_in] | done].
  - destruct (Qmaxb_fold_in (Detection.confidence seed)
                            (Detection.confidence <$> o :: others))
      as [Heq | (m & Hm & Hmem)%list_elem_of_fmap].
    + exists seed. split; [apply Hin; [done | left] | done].
    + exists m. split; [apply Hin; [done | by right] | done].
Qed.

Lemma relevant_within_six (d : Detection) : relevant d → Detection.steps d ≤ 6.
Proof. unfold relevant. lia. Qed.

Lemma applyDetectionPipeline_alertWorthy (sqrt : Q → Q) (clk : Clock)
    (s : Service) (detections : list Detection) :
  Forall alertWorthy (applyDetectionPipeline sqrt clk s detections).2.
Proof.
  unfold applyDetectionPipeline.
  pose proof (trackAll_sameButMovement sqrt
                (filterCenterFOV (confidenceFilter detections))
                (objectTracker s)) as Htrack.
  unfold updateObjectTracking.
  destruct (trackAll sqrt (objectTracker s) _) as [tracker annotated].
  simpl in *. apply Forall_forall. intros r Hr.
  apply list_elem_of_filter in Hr as [_ Hr].
  apply clusterNearbyObjects_origin in Hr
    as [(m & Hm & Hsteps & Hx) (m' & Hm' & Hconf)].
  assert (Hannotated : ∀ a, a ∈ annotated →
            (Qabs (Detection.x a - 0.5) <= CENTER_FOV_THRESHOLD)%Q
            ∧ (MIN_CONFIDENCE <= Detection.confidence a)%Q).
  { intros a (i & Ha)%list_elem_of_lookup.
    destruct (Forall2_lookup_r _ _ _ _ _ Htrack Ha) as (d & Hd & Hsame).
    apply sameButMovement_fields in Hsame as (_ & _ & -> & _ & _ & -> & _).
    apply list_elem_of_lookup_2, list_elem_of_filter in Hd as [Hfov Hd].
    apply list_elem_of_filter in Hd as [Hc _].
    split; [by apply Qleb_le in Hfov | by apply Qleb_le in Hc]. }
  apply list_elem_of_filter in Hm as [Hrel Hm], Hm' as [_ Hm'].
  apply keepByMovementAndProximity_spec, relevant_within_six in Hrel.
  unfold alertWorthy. rewrite Hx, Hsteps, Hconf.
  split; [by apply Hannotated |]. split; [done | by apply Hannotated].
Qed.

Lemma generateSmartAlerts_alert (os : string) (tAlert tSet : Z) (s : Service)
    (detections : list Detection) :
  Forall (λ a, detection a ∈ detections
               ∧ a = createSmartAlert os tAlert (detection a))
         (generateSmartAlerts os tAlert tSet s detections).2.
Proof.
  unfold generateSmartAlerts. case_bool_decide; [by constructor |].
  unfold prioritize.
  destruct (sortBy _ _) as [| [top p] rest] eqn:Hsort; [by constructor |].
  simpl. constructor; [| by constructor]. simpl. split; [| done].
  assert (Htop : (top, p) ∈ (λ d, (d, calculatePriority d)) <$> detections).
  { apply (sortBy_elem snd). rewrite Hsort. left. }
  by apply list_elem_of_fmap in Htop as (d0 & [= -> ->] & Hd0).
Qed.

(** X4. Whatever the Detector returns, an alert of the pipeline is for a
    detection in the centre of the frame (at most 0.25 from 0.5 in [x]), at
    most six steps away and of confidence at least 0.6; it is therefore
    always to be announced ([shouldAnnounce] needs eight steps or fewer). *)
Theorem alerts_are_central_and_near (sqrt : Q → Q) (os : string)
    (clk : Clock) (s : Service) (rawDetections : list Detection) :
  Forall (λ a, alertWorthy (detection a) ∧ shouldAnnounce a = true)
         (processDetections sqrt os clk s rawDetections).2.
Proof.
  unfold processDetections.
  pose proof (applyDetectionPipeline_alertWorthy sqrt clk s rawDetections)
    as Hworthy.
  destruct (applyDetectionPipeline sqrt clk s rawDetections) as [s1 filtered].
  simpl in Hworthy.
  eapply Forall_impl; [apply generateSmartAlerts_alert |].
  intros a [Hin ->]. simpl.
  pose proof (proj1 (Forall_forall _ _) Hworthy _ Hin) as Ha.
  split; [done |]. destruct Ha as (_ & Hsteps & _).
  apply Z.leb_le. lia.
Qed.

(** ** From the second observation on *)





(** ** What the eviction leaves *)

Lemma cleanHistory_fresh (now : Z) (history kept : list Detection) :
  cleanHistory now history = Some kept →
  kept ≠ [] ∧ Forall (λ d, now - Detection.timestamp d < 10000) kept.
Proof.
  unfold cleanHistory. case_bool_decide as Hlen; [done |].
  intros [= <-]. split.
  - intros Hnil. apply Hlen. by rewrite Hnil.
  - apply Forall_forall. by intros d [? _]%list_elem_of_filter.
Qed.

(** X10. After every tracker update no key is left with an empty history,
    every stored observation is less than 10 s old at the time of the
    update, and every cooldown entry is at most 30 s old. *)
Theorem update_leaves_only_fresh_state (sqrt : Q → Q) (now : Z) (s : Service)
    (detections : list Detection) :
  let s' := (updateObjectTracking sqrt now s detections).1 in
  map_Forall (λ _ history,
                history ≠ []
                ∧ Forall (λ d, now - Detection.timestamp d < 10000) history)
             (objectTracker s')
  ∧ map_Forall (λ _ t, now - t ≤ 30000) (lastAlerts s').
Proof.
  unfold updateObjectTracking.
  destruct (trackAll sqrt (objectTracker s) detections) as [tracker annotated].
  simpl. split.
  - intros key kept Hkey. rewrite lookup_omap in Hkey.
    destruct (tracker !! key) as [history |]; simpl in Hkey; [| done].
    by eapply cleanHistory_fresh.
  - intros label t [_ Hold]%map_lookup_filter_Some. simpl in Hold. lia.
Qed.

(** ** After the maps are cleared *)

Lemma applyTemporalFiltering_all (s : Service) (now : Z)
    (detections : list Detection) :
  Forall (λ d, keepTemporal s now d = true) detections →
  applyTemporalFiltering s now detections = detections.
Proof.
  unfold applyTemporalFiltering. induction 1 as [| d l Hd _ IH]; [done |].
  by rewrite filter_cons, decide_True, IH.
Qed.

(** X11. [clearTrackingData] empties the tracker and the cooldown table,
    and with them every cooldown: at any time from 4000 ms after the epoch
    on, the temporal filter of the cleared service keeps every detection.
    (A label without entry counts as alerted at time 0.) *)
Theorem cleared_service_suppresses_nothing (s : Service) (now : Z)
    (detections : list Detection) :
  ALERT_COOLDOWN_MS ≤ now →
  objectTracker (clearTrackingData s) = ∅
  ∧ lastAlerts (clearTrackingData s) = ∅
  ∧ applyTemporalFiltering (clearTrackingData s) now detections = detections.
Proof.
  intros Hnow. split; [done |]. split; [done |].
  apply applyTemporalFiltering_all, Forall_forall. intros d _.
  unfold keepTemporal. simpl. rewrite lookup_empty. simpl.
  destruct (Detection.steps d <=? 1); [done |].
  by rewrite Z.sub_0_r, (proj2 (Z.ltb_ge _ _) Hnow).
Qed.

(** X11 at work: the service that alerted for "chair" a second ago keeps
    the chair at three steps once it is cleared, and not before. *)
Lemma cleared_service_suppresses_nothing_witness :
  ALERT_COOLDOWN_MS ≤ t0
  ∧ applyTemporalFiltering recentChair t0 [chairAtThreeSteps] = []
  ∧ applyTemporalFiltering (clearTrackingData recentChair) t0
                           [chairAtThreeSteps]
    = [chairAtThreeSteps].
Proof.
  assert (Hnow : ALERT_COOLDOWN_MS ≤ t0) by (vm_compute; discriminate).
  split; [exact Hnow |]. split; [vm_compute; reflexivity |].
  exact (proj2 (proj2 (cleared_service_suppresses_nothing
                         recentChair t0 [chairAtThreeSteps] Hnow))).
Defined.

(** ** The cooldown from one tick to the next *)

Lemma keepTemporal_in_cooldown (s : Service) (now : Z) (d : Detection) :
  keepTemporal s now d = true →
  now - default 0 (lastAlerts s !! Detection.label d) < ALERT_COOLDOWN_MS →
  Detection.steps d ≤ 1 ∨ movedSinceEarliest s d.
Proof.
  unfold keepTemporal, movedSinceEarliest, at_index. intros Hkeep Hcool.
  destruct (Z.leb_spec (Detection.steps d) 1) as [Hclose | Hfar]; [by left |].
  right. apply Z.ltb_lt in Hcool. rewrite Hcool in Hkeep.
  destruct (objectTracker s !! trackingKey d) as [history |]; [| done].
  destruct (Nat.leb_spec 2 (length history)) as [Hlen | Hlen]; [| done].
  destruct (history !! 0%nat) as [first |] eqn:Hfirst; [| done].
  destruct (history !! (length history - 1)%nat) as [latest |] eqn:Hlatest;
    [| done].
  apply Qgtb_lt in Hkeep. by exists history, first, latest.
Qed.

Lemma generateSmartAlerts_state (os : string) (tAlert tSet : Z) (s : Service)
    (detections : list Detection) :
  let r := generateSmartAlerts os tAlert tSet s detections in
  set_lastAlerts r.1 (lastAlerts s) = s
  ∧ Forall (λ a, lastAlerts r.1
                 = <[Detection.label (detection a) := tSet]> (lastAlerts s))
           r.2.
Proof.
  unfold generateSmartAlerts. destruct s. case_bool_decide; [done |].
  destruct (prioritize detections); [done |].
  simpl. split; [done |]. by constructor.
Qed.

(** The state the temporal filter of a tick reads, recovered from the state
    the tick ends in: the tracker is the final one and the cooldown table
    is the initial one after the eviction. *)
Lemma processDetections_kept (sqrt : Q → Q) (os : string) (clk : Clock)
    (s : Service) (rawDetections : list Detection) :
  let r := processDetections sqrt os clk s rawDetections in
  let kept := filter (λ kt, ¬ (30000 < t_clean clk - kt.2)) (lastAlerts s) in
  Forall (λ a,
            keepTemporal (set_lastAlerts r.1 kept) (t_filter clk) (detection a)
            = true
            ∧ lastAlerts r.1
              = <[Detection.label (detection a) := t_set clk]> kept)
         r.2.
Proof.
  unfold processDetections.
  pose proof (applyDetectionPipeline_lastAlerts sqrt clk s rawDetections) as Hl.
  assert (Hfilter : ∀ d, d ∈ (applyDetectionPipeline sqrt clk s rawDetections).2
            → keepTemporal (applyDetectionPipeline sqrt clk s rawDetections).1
                           (t_filter clk) d = true).
  { unfold applyDetectionPipeline.
    destruct (updateObjectTracking _ _ _ _) as [s1 tracked]. simpl.
    by intros d [? _]%list_elem_of_filter. }
  destruct (applyDetectionPipeline sqrt clk s rawDetections) as [s1 filtered].
  simpl in *. rewrite <- Hl.
  destruct (generateSmartAlerts_state os (t_alert clk) (t_set clk) s1 filtered)
    as [Hstate Hset].
  rewrite Hstate.
  pose proof (generateSmartAlerts_alert os (t_alert clk) (t_set clk) s1
                filtered) as Halert.
  apply Forall_forall. intros a Ha. split.
  - apply Hfilter. by apply (proj1 (Forall_forall _ _) Halert a Ha).
  - by apply (proj1 (Forall_forall _ _) Hset a Ha).
Qed.

(** X2. When a tick alerts for a label and the next tick filters less than
    4000 ms after that alert was recorded (and evicts at most 30 s after
    it), the next tick alerts for the same label only if the detection is
    within one step or its key has moved by more than 0.15 in [x] since the
    earliest stored observation. *)
Theorem cooldown_holds_across_ticks (sqrt : Q → Q) (os : string)
    (clk1 clk2 : Clock) (s : Service) (raw1 raw2 : list Detection) :
  t_clean clk2 - t_set clk1 ≤ 30000 →
  t_filter clk2 - t_set clk1 < ALERT_COOLDOWN_MS →
  let r1 := processDetections sqrt os clk1 s raw1 in
  let r2 := processDetections sqrt os clk2 r1.1 raw2 in
  Forall (λ a1,
    Forall (λ a2,
      Detection.label (detection a2) = Detection.label (detection a1) →
      Detection.steps (detection a2) ≤ 1
      ∨ movedSinceEarliest r2.1 (detection a2)) r2.2) r1.2.
Proof.
  intros Hclean Hfilter r1 r2.
  pose proof (processDetections_kept sqrt os clk1 s raw1) as H1.
  pose proof (processDetections_kept sqrt os clk2 r1.1 raw2) as H2.
  fold r1 in H1. fold r2 in H2. simpl in H1, H2.
  apply Forall_forall. intros a1 Ha1.
  apply (proj1 (Forall_forall _ _) H1) in Ha1 as [_ Hset].
  apply Forall_forall. intros a2 Ha2 Hlabel.
  apply (proj1 (Forall_forall _ _) H2) in Ha2 as [Hkeep _].
  apply keepTemporal_in_cooldown in Hkeep.
  - destruct Hkeep as [? | Hmoved]; [by left | right].
    by destruct r2.1.
  - simpl. rewrite Hlabel, Hset.
    set (kept1 := filter _ (lastAlerts s)).
    assert (Hlook : filter (λ kt : string * Z, ¬ 30000 < t_clean clk2 - kt.2)
                      (<[Detection.label (detection a1) := t_set clk1]> kept1)
                    !! Detection.label (detection a1) = Some (t_set clk1)).
    { apply map_lookup_filter_Some.
      split; [apply lookup_insert_eq | simpl; lia]. }
    rewrite Hlook. simpl. lia.
Qed.

(** X2 at work: a person one step away is alerted for at [t0] and again
    1.2 s later, inside the cooldown, being within one step. *)
Lemma cooldown_holds_across_ticks_witness :
  let clk1 := clockAt t0 in
  let clk2 := clockAt (t0 + 1200) in
  let r1 := processDetections sqrt_lower "ios" clk1 freshService [personAhead] in
  let r2 := processDetections sqrt_lower "ios" clk2 r1.1 [personLater] in
  t_clean clk2 - t_set clk1 ≤ 30000
  ∧ t_filter clk2 - t_set clk1 < ALERT_COOLDOWN_MS
  ∧ length r1.2 = 1%nat
  ∧ length r2.2 = 1%nat
  ∧ Forall (λ a1,
      Forall (λ a2,
        Detection.label (detection a2) = Detection.label (detection a1) →
        Detection.steps (detection a2) ≤ 1
        ∨ movedSinceEarliest r2.1 (detection a2)) r2.2) r1.2.
Proof.
  intros clk1 clk2 r1 r2.
  assert (Hclean : t_clean clk2 - t_set clk1 ≤ 30000)
    by (vm_compute; discriminate).
  assert (Hfilter : t_filter clk2 - t_set clk1 < ALERT_COOLDOWN_MS)
    by (vm_compute; reflexivity).
  split; [exact Hclean |]. split; [exact Hfilter |].
  split; [vm_compute; reflexivity |]. split; [vm_compute; reflexivity |].
  exact (cooldown_holds_across_ticks sqrt_lower "ios" clk1 clk2 freshService
           [personAhead] [personLater] Hclean Hfilter).
Defined.

(** ** Ranking and actuation *)

Lemma distance_score_antitone (n m : Z) :
  n ≤ m →
  ((if m <=? 1 then 50 else if m <=? 2 then 30 else if m <=? 4 then 15
    else inject_Z (Z.max 0 (10 - m)))
   <= (if n <=? 1 then 50 else if n <=? 2 then 30 else if n <=? 4 then 15
       else inject_Z (Z.max 0 (10 - n))))%Q.
Proof.
  intros Hnm.
  assert (Hfar : ∀ k, 4 < k → (inject_Z (Z.max 0 (10 - k)) <= 15)%Q).
  { intros k Hk. unfold Qle. simpl. lia. }
  destruct (Z.leb_spec m 1), (Z.leb_spec n 1); try lia; try apply Qle_refl.
  - destruct (Z.leb_spec m 2); [by vm_compute |].
    destruct (Z.leb_spec m 4); [by vm_compute |].
    eapply Qle_trans; [by apply Hfar | by vm_compute].
  - destruct (Z.leb_spec m 2), (Z.leb_spec n 2); try lia; try apply Qle_refl.
    + destruct (Z.leb_spec m 4); [by vm_compute |].
      eapply Qle_trans; [by apply Hfar | by vm_compute].
    + destruct (Z.leb_spec m 4), (Z.leb_spec n 4); try lia;
        try apply Qle_refl; [by apply Hfar |].
      unfold Qle. simpl. lia.
Qed.

(** X12. All else equal, a detection never scores lower for being nearer:
    [calculatePriority] does not increase with the step count. *)
Theorem priority_antitone_in_steps (d : Detection) (n m : Z) :
  n ≤ m →
  (calculatePriority (withSteps d m) <= calculatePriority (withSteps d n))%Q.
Proof.
  intros Hnm. pose proof (distance_score_antitone n m Hnm) as Hscore.
  unfold calculatePriority, withSteps. cbn [Detection.steps Detection.x
    Detection.label Detection.isMoving Detection.velocity Detection.confidence].
  set (pm := if m <=? 1 then _ else _) in *.
  set (pn := if n <=? 1 then _ else _) in *.
  set (c := ((1 - Qabs (Detection.x d - 0.5)) * 10)%Q).
  set (k := (Detection.confidence d * 8)%Q).
  destruct (mem (Detection.label d) CRITICAL_OBJECTS),
    (mem (Detection.label d) WARNING_OBJECTS),
    (mem (Detection.label d) INFO_OBJECTS),
    (is_true (Detection.isMoving d));
    try destruct (Detection.velocity d) as [v |];
    try destruct (truthy v && num_gtb v 1); lra.
Qed.

(** X12 at work: the chair scores higher at three steps than at five. *)
Lemma priority_antitone_in_steps_witness :
  3 ≤ 5
  ∧ (calculatePriority (withSteps chairAhead 5)
     <= calculatePriority (withSteps chairAhead 3))%Q.
Proof.
  assert (H : 3 ≤ 5) by lia.
  split; [exact H | exact (priority_antitone_in_steps chairAhead 3 5 H)].
Defined.

(** X13. The class of an alert fixes its actuation.  An urgent alert is for
    a detection within two steps: it is announced, vibrates except on the
    web, and carries no [suppressUntil].  An informational alert is for a
    detection of a non-critical label at four steps or more: it never
    vibrates and always carries [suppressUntil].  A warning is for a
    detection within three steps or of a critical label. *)
Theorem alert_class_fixes_actuation (os : string) (now : Z) (d : Detection) :
  let a := createSmartAlert os now d in
  match alertType a with
  | urgent =>
      Detection.steps d ≤ 2
      ∧ shouldAnnounce a = true
      ∧ shouldVibrate a = negb (bool_decide (os = "web"%string))
      ∧ suppressUntil a = None
  | warning =>
      (Detection.steps d ≤ 3 ∨ Detection.label d ∈ CRITICAL_OBJECTS)
      ∧ (shouldVibrate a = true → Detection.steps d = 2)
  | info =>
      4 ≤ Detection.steps d
      ∧ (Detection.label d ∉ CRITICAL_OBJECTS)
      ∧ shouldVibrate a = false
      ∧ suppressUntil a = Some (now + ALERT_COOLDOWN_MS)
  end.
Proof.
  unfold createSmartAlert, determineAlertType. simpl.
  pose proof (mem_elem_of (Detection.label d) CRITICAL_OBJECTS) as Hmem.
  destruct (Z.leb_spec (Detection.steps d) 1),
    (Z.leb_spec (Detection.steps d) 2),
    (Z.leb_spec (Detection.steps d) 3),
    (Z.leb_spec (Detection.steps d) 8),
    (Z.ltb_spec 2 (Detection.steps d)),
    (is_true (Detection.isMoving d)),
    (mem (Detection.label d) CRITICAL_OBJECTS);
    simpl; try lia;
    repeat split; try done; try lia;
    try (left; lia); try (right; by apply Hmem);
    try (intros Hin%Hmem; discriminate).
Qed.

(** ** The simulated Detector *)



Lemma createRealisticDetection_central (s : Service) (timestamp : Z)
    (r : Draws) :
  unitDraw (r_x r) →
  let d := createRealisticDetection s timestamp r in
  (0.3 <= Detection.x d)%Q ∧ (Detection.x d < 0.7)%Q ∧ inCenterFOV d = true.
Proof.
  intros [Hlo Hhi] d.
  assert (Hxs : (0.3 <= Detection.x d)%Q ∧ (Detection.x d < 0.7)%Q).
  { subst d. unfold createRealisticDetection. cbn [Detection.x]. lra. }
  split; [apply Hxs |]. split; [apply Hxs |].
  unfold inCenterFOV. apply Qleb_le, Qabs_Qle_condition.
  unfold CENTER_FOV_THRESHOLD. lra.
Qed.



(** X15. A simulated frame holds at most two detections, and the centre
    filter drops none of them: the simulated Detector only places objects in
    the part of the frame the filter keeps. *)
Theorem simulated_frame_passes_centre_filter (s : Service) (now : Z)
    (r_none r_one : Q) (first second : Draws) :
  unitDraw (r_x first) →
  unitDraw (r_x second) →
  let frame := generateRealisticDetections s now r_none r_one first second in
  (length frame ≤ 2)%nat ∧ filterCenterFOV frame = frame.
Proof.
  intros Hfirst Hsecond frame.
  destruct (createRealisticDetection_central s now first Hfirst)
    as (_ & _ & H1).
  destruct (createRealisticDetection_central s now second Hsecond)
    as (_ & _ & H2).
  subst frame. unfold generateRealisticDetections, filterCenterFOV.
  destruct (Qltb r_none 0.7); [by split; [simpl; lia |] |].
  destruct (Qltb r_one 0.8); simpl.
  - split; [lia |]. by rewrite filter_cons, decide_True.
  - split; [lia |]. rewrite filter_cons, decide_True by done.
    by rewrite filter_cons, decide_True.
Qed.

(** X15 at work: a frame of two objects. *)
Lemma simulated_frame_passes_centre_filter_witness :
  unitDraw (r_x movingDraws)
  ∧ length (generateRealisticDetections freshService t0 0.9 0.9
              movingDraws movingDraws) = 2%nat
  ∧ filterCenterFOV (generateRealisticDetections freshService t0 0.9 0.9
                       movingDraws movingDraws)
    = generateRealisticDetections freshService t0 0.9 0.9
        movingDraws movingDraws.
Proof.
  assert (Hx : unitDraw (r_x movingDraws)) by (unfold unitDraw; simpl; lra).
  split; [exact Hx |]. split; [reflexivity |].
  exact (proj2 (simulated_frame_passes_centre_filter freshService t0 0.9 0.9
                  movingDraws movingDraws Hx Hx)).
Defined.

(** ** The screen and the alerts of the pipeline *)

(** X16. What the camera screen does with the result of a tick.  Without
    alert it speaks and vibrates nothing and keeps the time of its last
    announcement.  With an alert it displays it; it speaks its message
    exactly when audio is enabled and the alert is urgent or more than
    [announcementDelay] seconds have passed since the last announcement (the
    alert's own [shouldAnnounce] is always true for a pipeline alert), and
    records the time exactly when it speaks; it vibrates exactly when the detection is within
    two steps, haptics are enabled and the platform is not the web. *)
Theorem screen_actuation_of_tick (sqrt : Q → Q) (os : string) (clk : Clock)
    (s : Service) (rawDetections : list Detection) (settings : Settings)
    (now lastAnnouncement : Z) :
  let r := processDetections sqrt os clk s rawDetections in
  let act := handleAlerts os settings now lastAnnouncement r.2 in
  match r.2 with
  | [] => act = mkActuation None None false lastAnnouncement
  | a :: _ =>
      currentAlert act = Some a
      ∧ (spoken act = Some (message a)
         ↔ audioEnabled settings = true
           ∧ (alertType a = urgent
              ∨ (announcementDelay settings * 1000
                 < inject_Z (now - lastAnnouncement))%Q))
      ∧ ((spoken act = Some (message a) ∧ lastAnnouncementTime act = now)
         ∨ (spoken act = None ∧ lastAnnouncementTime act = lastAnnouncement))
      ∧ (vibrated act = true
         ↔ Detection.steps (detection a) ≤ 2
           ∧ hapticEnabled settings = true ∧ os ≠ "web"%string)
  end.
Proof.
  intros r act. subst act.
  pose proof (applyDetectionPipeline_alertWorthy sqrt clk s rawDetections)
    as Hworthy.
  subst r. unfold processDetections in *.
  destruct (applyDetectionPipeline sqrt clk s rawDetections) as [s1 filtered].
  simpl in Hworthy.
  pose proof (generateSmartAlerts_alert os (t_alert clk) (t_set clk) s1
                filtered) as Halert.
  destruct (generateSmartAlerts os (t_alert clk) (t_set clk) s1 filtered).2
    as [| a rest]; [done |].
  apply Forall_cons in Halert as [[Hin Ha] _].
  pose proof (proj1 (Forall_forall _ _) Hworthy _ Hin) as (_ & Hsteps & _).
  assert (Hann : shouldAnnounce a = true).
  { rewrite Ha. simpl. apply Z.leb_le. lia. }
  assert (Hvib : shouldVibrate a
                 = (Detection.steps (detection a) <=? 2)
                   && negb (bool_decide (os = "web"%string)))
    by (by rewrite Ha at 1).
  unfold handleAlerts. cbn zeta. rewrite Hann, Hvib. simpl.
  split; [done |].
  rewrite <- (Qgtb_lt (inject_Z (now - lastAnnouncement))
                      (announcementDelay settings * 1000)).
  split; [| split].
  - destruct (audioEnabled settings), (Qgtb _ _), (alertType a); simpl;
      split; try done; try (intros [? [? | ?]]; done);
      try (by intros _; split; [| left]);
      try (by intros _; split; [| right]).
  - destruct (audioEnabled settings), (Qgtb _ _), (alertType a); simpl;
      (by left) || (by right).
  - rewrite !andb_true_iff, negb_true_iff, Z.leb_le, bool_decide_eq_false.
    tauto.
Qed.

(** ** The first-generation service and a detection that keeps its id *)

Lemma sqrt_lower_zero (q : Q) :
  (q == 0)%Q → (sqrt_lower q < Legacy.POSITION_CHANGE_THRESHOLD)%Q.
Proof.
  intros Hq. unfold sqrt_lower.
  assert (Hfloor : Qfloor (q * 1000000) = 0).
  { change 0 with (Qfloor (0 * 1000000)). by rewrite Hq. }
  by rewrite Hfloor.
Qed.

(** X17. In the first-generation service a detection beyond one step that
    was alerted for, and comes back with the same id and position, is never
    alerted for again while its entries stay in the two maps: inside the
    cooldown of 3000 ms by the cooldown, after it by the position it was
    last alerted at.  (The square root only has to send zero below the
    position threshold of 0.1.) *)
Theorem legacy_same_detection_alerted_once (sqrt : Q → Q)
    (now tAlert now' tAlert' : Z) (st : LegacyService.State)
    (d : Detection) (rest rest' : list Detection) :
  (∀ q, (q == 0)%Q → (sqrt q < Legacy.POSITION_CHANGE_THRESHOLD)%Q) →
  1 < Detection.steps d →
  let r := LegacyService.applyAlertFiltering sqrt now tAlert st (d :: rest) in
  r.2 ≠ [] →
  (LegacyService.applyAlertFiltering sqrt now' tAlert' r.1 (d :: rest')).2 = [].
Proof.
  intros Hsqrt Hsteps r Hemitted. subst r.
  unfold LegacyService.applyAlertFiltering in *.
  destruct (Legacy.shouldSuppressAlert sqrt (LegacyService.lastPositions st)
              d _); [done |].
  cbn [fst snd LegacyService.lastAlerts LegacyService.lastPositions].
  rewrite lookup_insert_eq. simpl.
  assert (Hsuppress : Legacy.shouldSuppressAlert sqrt
            (<[Detection.id d :=
                 Legacy.mkPosition (Detection.x d) (Detection.y d) now]>
               (LegacyService.lastPositions st)) d (now' - now) = true).
  { unfold Legacy.shouldSuppressAlert.
    destruct (Z.leb_spec (Detection.steps d) 1); [lia |].
    destruct (now' - now <? Legacy.ALERT_COOLDOWN_MS); [done |].
    rewrite lookup_insert_eq. cbn [Legacy.px Legacy.py].
    assert (Hzero : ((Detection.x d - Detection.x d) ^ 2
                     + (Detection.y d - Detection.y d) ^ 2 == 0)%Q) by ring.
    apply Hsqrt in Hzero.
    apply (Qgtb_lt Legacy.POSITION_CHANGE_THRESHOLD) in Hzero.
    unfold Qgtb in Hzero. by rewrite Hzero. }
  by rewrite Hsuppress.
Qed.

(** X17 at work: the chair at three steps is alerted for at [t0] and not
    again five seconds later. *)
Lemma legacy_same_detection_alerted_once_witness :
  (∀ q, (q == 0)%Q → (sqrt_lower q < Legacy.POSITION_CHANGE_THRESHOLD)%Q)
  ∧ 1 < Detection.steps legacyChair
  ∧ (LegacyService.applyAlertFiltering sqrt_lower t0 t0 legacyFresh
       [legacyChair]).2 ≠ []
  ∧ (LegacyService.applyAlertFiltering sqrt_lower (t0 + 5000) (t0 + 5000)
       (LegacyService.applyAlertFiltering sqrt_lower t0 t0 legacyFresh
          [legacyChair]).1
       [legacyChair]).2 = [].
Proof.
  assert (Hsteps : 1 < Detection.steps legacyChair) by reflexivity.
  assert (Hemitted : (LegacyService.applyAlertFiltering sqrt_lower t0 t0
                        legacyFresh [legacyChair]).2 ≠ [])
    by (vm_compute; discriminate).
  split; [exact sqrt_lower_zero |]. split; [exact Hsteps |].
  split; [exact Hemitted |].
  exact (legacy_same_detection_alerted_once sqrt_lower t0 t0 (t0 + 5000)
           (t0 + 5000) legacyFresh legacyChair [] [] sqrt_lower_zero Hsteps
           Hemitted).
Defined.

(** X18. The eviction of [clearOldTrackingData] re-arms the first-generation
    service: once it has run more than 30 s after the alert, the same
    detection is alerted for again (at any time from 3000 ms after the
    epoch on). *)
Theorem legacy_rearmed_after_cleanup (sqrt : Q → Q)
    (now tAlert tClean now' tAlert' : Z) (st : LegacyService.State)
    (d : Detection) (rest rest' : list Detection) :
  30000 < tClean - now →
  Legacy.ALERT_COOLDOWN_MS ≤ now' →
  let r := LegacyService.applyAlertFiltering sqrt now tAlert st (d :: rest) in
  r.2 ≠ [] →
  (LegacyService.applyAlertFiltering sqrt now' tAlert'
     (LegacyService.clearOldTrackingData tClean r.1) (d :: rest')).2
  = [LegacyService.createAlert tAlert' d].
Proof.
  intros Hold Hnow r Hemitted. subst r.
  unfold LegacyService.applyAlertFiltering in *.
  destruct (Legacy.shouldSuppressAlert sqrt (LegacyService.lastPositions st)
              d _); [done |].
  cbn [fst snd LegacyService.clearOldTrackingData LegacyService.lastAlerts
       LegacyService.lastPositions].
  assert (Hlabel : filter (λ kt : string * Z, ¬ 30000 < tClean - kt.2)
                     (<[Detection.label d := now]>
                        (LegacyService.lastAlerts st))
                   !! Detection.label d = None).
  { apply map_lookup_filter_None. right. intros t Ht.
    rewrite lookup_insert_eq in Ht. injection Ht as <-. simpl. lia. }
  assert (Hid : filter (λ kp : string * Legacy.Position,
                          ¬ 30000 < tClean - Legacy.ptime kp.2)
                  (<[Detection.id d :=
                       Legacy.mkPosition (Detection.x d) (Detection.y d) now]>
                     (LegacyService.lastPositions st))
                !! Detection.id d = None).
  { apply map_lookup_filter_None. right. intros p Hp.
    rewrite lookup_insert_eq in Hp. injection Hp as <-. simpl. lia. }
  rewrite Hlabel. unfold Legacy.shouldSuppressAlert. rewrite Hid. simpl.
  rewrite Z.sub_0_r, (proj2 (Z.ltb_ge _ _) Hnow).
  by destruct (Detection.steps d <=? 1).
Qed.

(** X18 at work: the chair is alerted for again once the entries of 31 s
    ago are evicted. *)
Lemma legacy_rearmed_after_cleanup_witness :
  30000 < (t0 + 31000) - t0
  ∧ Legacy.ALERT_COOLDOWN_MS ≤ t0 + 32000
  ∧ (LegacyService.applyAlertFiltering sqrt_lower t0 t0 legacyFresh
       [legacyChair]).2 ≠ []
  ∧ length
      (LegacyService.applyAlertFiltering sqrt_lower (t0 + 32000) (t0 + 32000)
         (LegacyService.clearOldTrackingData (t0 + 31000)
            (LegacyService.applyAlertFiltering sqrt_lower t0 t0 legacyFresh
               [legacyChair]).1)
         [legacyChair]).2 = 1%nat.
Proof.
  assert (Hold : 30000 < (t0 + 31000) - t0) by (vm_compute; reflexivity).
  assert (Hnow : Legacy.ALERT_COOLDOWN_MS ≤ t0 + 32000)
    by (vm_compute; discriminate).
  assert (Hemitted : (LegacyService.applyAlertFiltering sqrt_lower t0 t0
                        legacyFresh [legacyChair]).2 ≠ [])
    by (vm_compute; discriminate).
  split; [exact Hold |]. split; [exact Hnow |]. split; [exact Hemitted |].
  by rewrite (legacy_rearmed_after_cleanup sqrt_lower t0 t0 (t0 + 31000)
                (t0 + 32000) (t0 + 32000) legacyFresh legacyChair [] []
                Hold Hnow Hemitted).
Defined.

(** ** The eviction and the temporal filter *)

(** X19. The eviction of cooldown entries older than 30 s is invisible to
    the temporal filter: from the time of the eviction on (and from 4000 ms
    after the epoch on) the filter keeps the same detections with the
    evicted table as with the full one, an evicted entry being out of its
    cooldown either way. *)
Theorem eviction_invisible_to_filter (s : Service) (tClean now : Z)
    (detections : list Detection) :
  tClean ≤ now →
  ALERT_COOLDOWN_MS ≤ now →
  applyTemporalFiltering
    (set_lastAlerts s
       (filter (λ kt, ¬ (30000 < tClean - kt.2)) (lastAlerts s)))
    now detections
  = applyTemporalFiltering s now detections.
Proof.
  intros Hclean Hnow. unfold applyTemporalFiltering.
  assert (Hsame : ∀ d,
    keepTemporal
      (set_lastAlerts s
         (filter (λ kt, ¬ (30000 < tClean - kt.2)) (lastAlerts s))) now d
    = keepTemporal s now d).
  { intros d. unfold keepTemporal. simpl.
    destruct (Detection.steps d <=? 1); [done |].
    destruct (lastAlerts s !! Detection.label d) as [t |] eqn:Ht.
    - destruct (decide (30000 < tClean - t)) as [Hold | Hrecent].
      + rewrite (proj2 (map_lookup_filter_None _ _ _)); simpl.
        * rewrite (proj2 (Z.ltb_ge (now - 0) _)) by lia.
          rewrite (proj2 (Z.ltb_ge (now - t) _));
            [done | unfold ALERT_COOLDOWN_MS in *; lia].
        * right. intros t' Ht'. rewrite Ht in Ht'.
          injection Ht' as <-. simpl. lia.
      + by rewrite (proj2 (map_lookup_filter_Some _ _ _ t)).
    - by rewrite (proj2 (map_lookup_filter_None _ _ _)) by (by left). }
  induction detections as [| d l IH]; [done |].
  by rewrite !filter_cons, IH, Hsame.
Qed.

(** X19 at work: the chair whose last alert is 40 s old passes the filter
    with and without its entry. *)
Lemma eviction_invisible_to_filter_witness :
  t0 ≤ t0
  ∧ ALERT_COOLDOWN_MS ≤ t0
  ∧ lastAlerts
      (set_lastAlerts staleChair
         (filter (λ kt, ¬ (30000 < t0 - kt.2)) (lastAlerts staleChair)))
    !! "chair"%string = None
  ∧ applyTemporalFiltering
      (set_lastAlerts staleChair
         (filter (λ kt, ¬ (30000 < t0 - kt.2)) (lastAlerts staleChair)))
      t0 [chairAtThreeSteps]
    = applyTemporalFiltering staleChair t0 [chairAtThreeSteps].
Proof.
  assert (Hclean : t0 ≤ t0) by lia.
  assert (Hnow : ALERT_COOLDOWN_MS ≤ t0) by (vm_compute; discriminate).
  split; [exact Hclean |]. split; [exact Hnow |].
  split; [vm_compute; reflexivity |].
  exact (eviction_invisible_to_filter staleChair t0 t0 [chairAtThreeSteps]
           Hclean Hnow).
Defined.

(** ** What reaches the alert of the first-generation service *)

Lemma legacy_cluster_origin (l : list Detection) (r : Detection) :
  r ∈ LegacyService.clusterNearbyObjects l →
  ∃ m, m ∈ l ∧ Detection.x r = Detection.x m
       ∧ Detection.steps r = Detection.steps m.
Proof.
  unfold LegacyService.clusterNearbyObjects.
  destruct (length l <=? 1)%nat; [by intros Hr; exists r |].
  intros (c & -> & Hc)%list_elem_of_fmap.
  pose proof (proj1 (Forall_forall _ _)
                (buildClustersBy_members LegacyService.near l) c Hc)
    as [Hseed Hothers].
  assert (Hin : ∀ m, m ∈ members c → m ∈ l).
  { intros m [-> | Hm]%elem_of_cons; [done |].
    by apply (proj1 (Forall_forall _ _) Hothers m Hm). }
  destruct c as [seed [| o others]]; [by exists seed |].
  exists (closestOf (seed, o :: others)).
  split; [apply Hin, closestOf_in | done].
Qed.

Lemma legacy_prioritize_elem (l : list Detection) (d : Detection) :
  d ∈ LegacyService.prioritizeDetections l → d ∈ l.
Proof.
  unfold LegacyService.prioritizeDetections.
  intros ([d' p] & -> & Hd)%list_elem_of_fmap.
  apply (proj1 (sortBy_elem snd _ _)) in Hd.
  by apply list_elem_of_fmap in Hd as (d0 & [= -> ->] & Hd0).
Qed.

(** X20. A tick of the first-generation service emits at most one alert,
    and only for a detection at most 0.35 from the centre of the frame in
    [x]; when it emits none, its two maps are unchanged. *)
Theorem legacy_alert_is_central (sqrt : Q → Q) (now tAlert : Z)
    (st : LegacyService.State) (rawDetections : list Detection) :
  let r := LegacyService.processDetections sqrt now tAlert st rawDetections in
  match r.2 with
  | [] => r.1 = st
  | a :: others =>
      others = []
      ∧ (Qabs (Detection.x (LegacyService.detection a) - 0.5)
         <= LegacyService.CENTER_FOV_THRESHOLD)%Q
      ∧ LegacyService.lastAlerts r.1
          !! Detection.label (LegacyService.detection a) = Some now
  end.
Proof.
  unfold LegacyService.processDetections, LegacyService.applyAlertFiltering.
  pose proof (legacy_prioritize_elem
                (LegacyService.clusterNearbyObjects
                   (LegacyService.filterCenterFOV rawDetections))) as Helem.
  destruct (LegacyService.prioritizeDetections _) as [| top rest]; [done |].
  destruct (Legacy.shouldSuppressAlert _ _ _ _); [done |].
  simpl. split; [done |]. split; [| apply lookup_insert_eq].
  destruct (legacy_cluster_origin _ top (Helem top ltac:(left)))
    as (m & Hm & -> & _).
  apply list_elem_of_filter in Hm as [Hfov _]. by apply Qleb_le in Hfov.
Qed.
